(** * Friday voice assistant: a shallow embedding of [Friday.py]

    The development follows the source file top-down:

    - [PyStr]  : the [str] primitives the program calls ([in], [replace],
                 [strip], [lower], [split], [startswith], [re.search(r'\d+')],
                 [int], [str]);
    - [PyEval] : the part of the built-in [eval] the calculator reaches on
                 arithmetic phrases;
    - [MusicLibrary] : the table of [music_library.py];
    - [Friday] : class [VoiceFridayAssistant], method by method, as functions
                 in a state monad over the assistant's fields, plus the
                 theorems about them.

    Conventions.  A Python [str] is a [string]; a character is a code point
    below 256.  Speech recognition, speech output, the browser, the key-press
    library, the encyclopedia, the chat model and the wall clock are
    collaborators: the first is an oracle indexed by the number of
    utterances already consumed, the others are recorded in a trace of
    [Effect]s or looked up in the environment.  An [except Exception]
    clause is a match on an [Outcome].  The exceptions outside
    [Exception] ([SystemExit], [KeyboardInterrupt]) are modelled where the
    program evaluates a text it was given, in [voice_calculator_full];
    in the methods of the router the evaluation is taken to return or to
    raise an [Exception].  A call recorded as an effect returns: the
    handlers of [run] for an exception that escapes a pass of its loop are
    not modelled.  The limits of the interpreter are modelled where the
    program meets them: [int()] of a spoken delay and [str()] of the
    calculator's result refuse an integer of more than 4300 digits, the
    default of [sys.int_max_str_digits], and [time.sleep] refuses a
    negative length and a length beyond what the platform takes. *)

From Stdlib Require Import String Ascii List ZArith Lia Bool Arith Permutation.
Import ListNotations.
Local Open Scope string_scope.
Local Open Scope list_scope.

(* ================================================================= *)
(** ** Python [str] primitives *)

Module PyStr.

(** [sub in s] *)
Fixpoint contains (sub s : string) : bool :=
  prefix sub s ||
  match s with
  | EmptyString => false
  | String _ rest => contains sub rest
  end.

(** [s.startswith(p)] *)
Definition startswith (p s : string) : bool := prefix p s.

(** [any(k in s for k in keys)] *)
Definition any_in (keys : list string) (s : string) : bool :=
  existsb (fun k => contains k s) keys.

(** The scan of [str.replace]: [skip] characters of a match just replaced
    are still to be dropped. *)
Fixpoint replace_from (old new : string) (skip : nat) (s : string) : string :=
  match s with
  | EmptyString => EmptyString
  | String c rest =>
      match skip with
      | S k => replace_from old new k rest
      | O =>
          if prefix old s
          then (new ++ replace_from old new (pred (String.length old)) rest)%string
          else String c (replace_from old new O rest)
      end
  end.

(** With an empty pattern Python puts [new] around every character. *)
Fixpoint intersperse (new s : string) : string :=
  match s with
  | EmptyString => new
  | String c rest => (new ++ String c (intersperse new rest))%string
  end.

(** [s.replace(old, new)]: every occurrence, leftmost first, without
    overlap. *)
Definition replace (old new s : string) : string :=
  match old with
  | EmptyString => intersperse new s
  | String _ _ => replace_from old new O s
  end.

(** [c.isspace()] on the code points below 256. *)
Definition isspace (c : ascii) : bool :=
  let n := nat_of_ascii c in
  (((9 <=? n) && (n <=? 13)) || ((28 <=? n) && (n <=? 32))
   || (n =? 133) || (n =? 160))%nat.

Fixpoint lstrip (s : string) : string :=
  match s with
  | EmptyString => EmptyString
  | String c rest => if isspace c then lstrip rest else s
  end.

Fixpoint rstrip (s : string) : string :=
  match s with
  | EmptyString => EmptyString
  | String c rest =>
      match rstrip rest with
      | EmptyString => if isspace c then EmptyString else String c EmptyString
      | r => String c r
      end
  end.

(** [s.strip()] *)
Definition strip (s : string) : string := rstrip (lstrip s).

(** [c.lower()] on the code points below 256: A-Z, and the accented capitals
    0xC0-0xDE except the multiplication sign 0xD7. *)
Definition lower_char (c : ascii) : ascii :=
  let n := nat_of_ascii c in
  if (((65 <=? n) && (n <=? 90))
      || ((192 <=? n) && (n <=? 222) && negb (n =? 215)))%nat
  then ascii_of_nat (n + 32) else c.

Fixpoint lower (s : string) : string :=
  match s with
  | EmptyString => EmptyString
  | String c rest => String (lower_char c) (lower rest)
  end.

(** [s.split()]: the maximal runs of non-space characters.  [cur] is the
    word being read, reversed. *)
Fixpoint rev_string (acc s : string) : string :=
  match s with
  | EmptyString => acc
  | String c rest => rev_string (String c acc) rest
  end.

Fixpoint split_from (cur : string) (s : string) : list string :=
  match s with
  | EmptyString =>
      match cur with
      | EmptyString => []
      | _ => [rev_string EmptyString cur]
      end
  | String c rest =>
      if isspace c
      then match cur with
           | EmptyString => split_from EmptyString rest
           | _ => rev_string EmptyString cur :: split_from EmptyString rest
           end
      else split_from (String c cur) rest
  end.

Definition split (s : string) : list string := split_from EmptyString s.

(** [x in words] and [words.index(x)] for a list of strings. *)
Definition list_in (x : string) (l : list string) : bool :=
  existsb (String.eqb x) l.

Fixpoint index (x : string) (l : list string) : option nat :=
  match l with
  | [] => None
  | y :: rest => if String.eqb x y then Some O
                 else option_map S (index x rest)
  end.

(** A [dict] from [str] to [str] is the list of its items in insertion
    order; [get key d] is [d[key]], and [None] when [key not in d]. *)
Fixpoint get (key : string) (d : list (string * string)) : option string :=
  match d with
  | [] => None
  | (k, v) :: rest => if String.eqb key k then Some v else get key rest
  end.

Definition isdigit (c : ascii) : bool :=
  let n := nat_of_ascii c in ((48 <=? n) && (n <=? 57))%nat.

(** The digits at the front of [s], and what follows them. *)
Fixpoint span_digits (s : string) : string * string :=
  match s with
  | EmptyString => (EmptyString, EmptyString)
  | String c rest =>
      if isdigit c
      then let (d, r) := span_digits rest in (String c d, r)
      else (EmptyString, s)
  end.

(** [re.search(r'\d+', s)]: the leftmost maximal run of digits. *)
Fixpoint search_digits (s : string) : option string :=
  match s with
  | EmptyString => None
  | String c rest =>
      if isdigit c then Some (fst (span_digits s)) else search_digits rest
  end.

Definition digit_value (c : ascii) : Z := Z.of_nat (nat_of_ascii c) - 48.

(** [int(d)] for a string of decimal digits. *)
Fixpoint int_digits (acc : Z) (d : string) : Z :=
  match d with
  | EmptyString => acc
  | String c rest => int_digits (10 * acc + digit_value c) rest
  end.

Definition int_of_digits (d : string) : Z := int_digits 0 d.

(** The interpreter's limit on the digits of an [int] that is read from a
    [str] or written to one, at its default. *)
Definition int_max_str_digits : nat := 4300.

(** [int(d)] for a string of decimal digits [d]; [None] is the
    [ValueError] for more digits than the limit. *)
Definition int_of_text (d : string) : option Z :=
  if (int_max_str_digits <? String.length d)%nat then None
  else Some (int_of_digits d).

Definition digit_char (n : nat) : ascii := ascii_of_nat (48 + n).

(** The decimal digits of a positive number, most significant first; the
    fuel bounds the number of digits. *)
Fixpoint digits_of (fuel : nat) (n : N) (acc : string) : string :=
  match fuel with
  | O => acc
  | S f =>
      let acc' := String (digit_char (N.to_nat (n mod 10))) acc in
      if (n <? 10)%N then acc' else digits_of f (n / 10)%N acc'
  end.

(** [str(z)] for an [int]. *)
Definition str_of_int (z : Z) : string :=
  let n := Z.to_N (Z.abs z) in
  let d := digits_of (S (N.to_nat (N.log2 n))) n EmptyString in
  if (z <? 0)%Z then String "-" d else d.

End PyStr.

(* ================================================================= *)
(** ** The built-in [eval], as far as the calculator needs it *)

Module PyEval.

(** What a [try] body does: it returns, or it raises an [Exception]. *)
Inductive Outcome (A : Type) : Type :=
| Returned (a : A)
| Raised.
Arguments Returned {A} a.
Arguments Raised {A}.

Definition bind {A B : Type} (o : Outcome A) (k : A -> Outcome B) : Outcome B :=
  match o with
  | Returned a => k a
  | Raised => Raised
  end.

(** Python objects: [int], [str], and any other object, given by what
    [str()] does on it. *)
Inductive Value : Type :=
| VInt (z : Z)
| VStr (s : string)
| VOther (text : Outcome string).

(** The local variables [eval] can read, by name. *)
Definition Scope : Type := list (string * Value).

Fixpoint lookup (x : string) (sc : Scope) : option Value :=
  match sc with
  | [] => None
  | (y, v) :: rest => if String.eqb x y then Some v else lookup x rest
  end.

(** The built-in [eval], called inside a method, where the evaluation
    returns or raises an [Exception]: a function of the text and of the
    method's local variables.  [FullEvaluator] below has the evaluations
    that end otherwise. *)
Definition Evaluator : Type := Scope -> string -> Outcome Value.

(** [str(v)], as an f-string field calls it.  On an [int] of more digits
    than the limit it raises a [ValueError]. *)
Definition str (v : Value) : Outcome string :=
  match v with
  | VInt z =>
      if (PyStr.int_max_str_digits
          <? String.length (PyStr.str_of_int (Z.abs z)))%nat
      then Raised else Returned (PyStr.str_of_int z)
  | VStr s => Returned s
  | VOther text => text
  end.

(** *** The arithmetic fragment

    [arith_eval] below decides [eval] on integer arithmetic: decimal
    literals, the names of the scope, [+ - * // % **], unary signs and
    parentheses.  Its answer is [None] wherever the text leaves that
    fragment (floats, calls, other names, keywords, other characters). *)

Inductive Op : Type := Plus | Minus | Star | DStar | Slash | DSlash | Percent.

Inductive Token : Type :=
| TNum (digits : string)
| TName (x : string)
| TOp (o : Op)
| TLPar
| TRPar.

Inductive LexState : Type :=
| Idle
| InNum (digits : string)
| InName (x : string)
| SawStar
| SawSlash.

Definition is_letter (c : ascii) : bool :=
  let n := nat_of_ascii c in
  (((65 <=? n) && (n <=? 90)) || ((97 <=? n) && (n <=? 122)))%nat.

Definition is_name_start (c : ascii) : bool :=
  is_letter c || Ascii.eqb c "_".

Definition is_name_char (c : ascii) : bool :=
  is_name_start c || PyStr.isdigit c.

(** Letters that may legally follow the digits of a number: exponent and
    imaginary marks, base prefixes, and the first letters of the keywords
    [and], [if], [in], [is], [for], [not], [or], [else]. *)
Definition may_follow_digits : list ascii :=
  list_ascii_of_string "eEjJxXoObBaifnAIFN".

Definition keywords : list string :=
  [ "False"; "None"; "True"; "and"; "as"; "assert"; "async"; "await";
    "break"; "class"; "continue"; "def"; "del"; "elif"; "else"; "except";
    "finally"; "for"; "from"; "global"; "if"; "import"; "in"; "is";
    "lambda"; "nonlocal"; "not"; "or"; "pass"; "raise"; "return"; "try";
    "while"; "with"; "yield"; "match"; "case"; "type"; "_" ].

Definition snoc (s : string) (c : ascii) : string :=
  (s ++ String c EmptyString)%string.

(** Reading [c] with no token under way: the next state and the tokens
    completed by [c]. *)
Definition start (c : ascii) : option (LexState * list Token) :=
  if PyStr.isdigit c then Some (InNum (String c EmptyString), [])
  else if is_name_start c then Some (InName (String c EmptyString), [])
  else if Ascii.eqb c " " || Ascii.eqb c "009" then Some (Idle, [])
  else if Ascii.eqb c "+" then Some (Idle, [TOp Plus])
  else if Ascii.eqb c "-" then Some (Idle, [TOp Minus])
  else if Ascii.eqb c "%" then Some (Idle, [TOp Percent])
  else if Ascii.eqb c "(" then Some (Idle, [TLPar])
  else if Ascii.eqb c ")" then Some (Idle, [TRPar])
  else if Ascii.eqb c "*" then Some (SawStar, [])
  else if Ascii.eqb c "/" then Some (SawSlash, [])
  else None.

(** A decimal literal of the fragment: no leading zero unless it is zero
    written with one digit, and at most 640 digits, which every setting of
    the interpreter's limit on integer literals accepts. *)
Definition number_token (digits : string) : option Token :=
  match digits with
  | String "0" (String _ _) => None
  | _ => if (String.length digits <=? 640)%nat then Some (TNum digits) else None
  end.

Definition name_token (x : string) : option Token :=
  if PyStr.list_in x keywords then None else Some (TName x).

Definition emit (t : option Token) (r : option (Outcome (list Token)))
  : option (Outcome (list Token)) :=
  match t, r with
  | Some t, Some (Returned ts) => Some (Returned (t :: ts))
  | Some _, Some Raised => Some Raised
  | _, _ => None
  end.

Definition emit_all (ts : list Token) (r : option (Outcome (list Token)))
  : option (Outcome (list Token)) :=
  fold_right (fun t => emit (Some t)) r ts.

(** The tokenizer.  The one lexical error it reports is a letter glued to
    the digits of a number, as in [9teen]. *)
Fixpoint lex (st : LexState) (s : string) : option (Outcome (list Token)) :=
  match s with
  | EmptyString =>
      match st with
      | Idle => Some (Returned [])
      | InNum d => emit (number_token d) (Some (Returned []))
      | InName x => emit (name_token x) (Some (Returned []))
      | SawStar => Some (Returned [TOp Star])
      | SawSlash => Some (Returned [TOp Slash])
      end
  | String c rest =>
      let resume (_ : unit) :=
        match start c with
        | Some (st', ts) => emit_all ts (lex st' rest)
        | None => None
        end in
      match st with
      | Idle => resume tt
      | InNum d =>
          if PyStr.isdigit c then lex (InNum (snoc d c)) rest
          else if is_letter c
          then if existsb (Ascii.eqb c) may_follow_digits
               then None else Some Raised
          else if Ascii.eqb c "_" || Ascii.eqb c "." then None
          else emit (number_token d) (resume tt)
      | InName x =>
          if is_name_char c then lex (InName (snoc x c)) rest
          else emit (name_token x) (resume tt)
      | SawStar =>
          if Ascii.eqb c "*" then emit (Some (TOp DStar)) (lex Idle rest)
          else emit (Some (TOp Star)) (resume tt)
      | SawSlash =>
          if Ascii.eqb c "/" then emit (Some (TOp DSlash)) (lex Idle rest)
          else emit (Some (TOp Slash)) (resume tt)
      end
  end.

(** Expressions of the fragment. *)
Inductive Expr : Type :=
| Num (z : Z)
| Var (x : string)
| Neg (e : Expr)
| Pos (e : Expr)
| Bin (o : Op) (e1 e2 : Expr).

(** A parser returns the expression read and the tokens left; [Raised] is
    a [SyntaxError], [None] a construct outside the fragment. *)
Definition Parsed : Type := option (Outcome (Expr * list Token)).

Definition and_then (p : Parsed) (k : Expr -> list Token -> Parsed) : Parsed :=
  match p with
  | Some (Returned (e, ts)) => k e ts
  | Some Raised => Some Raised
  | None => None
  end.

Definition is_additive (o : Op) : bool :=
  match o with Plus | Minus => true | _ => false end.

Definition is_multiplicative (o : Op) : bool :=
  match o with Star | Slash | DSlash | Percent => true | _ => false end.

(** Recursive descent along Python's grammar:
      sum    ::= term (('+' | '-') term)*
      term   ::= factor (('*' | '/' | '//' | '%') factor)*
      factor ::= ('+' | '-') factor | power
      power  ::= atom ['**' factor]
      atom   ::= NUMBER | NAME | '(' sum ')'
    An atom followed by '(' is a call and '()' is a tuple: both leave the
    fragment.  [fuel] bounds the depth of the descent. *)
Fixpoint parse_sum (fuel : nat) (ts : list Token) {struct fuel} : Parsed :=
  match fuel with
  | O => None
  | S f => and_then (parse_term f ts) (parse_sum_tail f)
  end
with parse_sum_tail (fuel : nat) (e : Expr) (ts : list Token) {struct fuel}
  : Parsed :=
  match fuel with
  | O => None
  | S f =>
      match ts with
      | TOp o :: rest =>
          if is_additive o
          then and_then (parse_term f rest)
                        (fun e2 => parse_sum_tail f (Bin o e e2))
          else Some (Returned (e, ts))
      | _ => Some (Returned (e, ts))
      end
  end
with parse_term (fuel : nat) (ts : list Token) {struct fuel} : Parsed :=
  match fuel with
  | O => None
  | S f => and_then (parse_factor f ts) (parse_term_tail f)
  end
with parse_term_tail (fuel : nat) (e : Expr) (ts : list Token) {struct fuel}
  : Parsed :=
  match fuel with
  | O => None
  | S f =>
      match ts with
      | TOp o :: rest =>
          if is_multiplicative o
          then and_then (parse_factor f rest)
                        (fun e2 => parse_term_tail f (Bin o e e2))
          else Some (Returned (e, ts))
      | _ => Some (Returned (e, ts))
      end
  end
with parse_factor (fuel : nat) (ts : list Token) {struct fuel} : Parsed :=
  match fuel with
  | O => None
  | S f =>
      match ts with
      | TOp Plus :: rest =>
          and_then (parse_factor f rest) (fun e r => Some (Returned (Pos e, r)))
      | TOp Minus :: rest =>
          and_then (parse_factor f rest) (fun e r => Some (Returned (Neg e, r)))
      | _ => parse_power f ts
      end
  end
with parse_power (fuel : nat) (ts : list Token) {struct fuel} : Parsed :=
  match fuel with
  | O => None
  | S f =>
      and_then (parse_atom f ts)
        (fun e rest =>
           match rest with
           | TOp DStar :: rest' =>
               and_then (parse_factor f rest')
                        (fun e2 r => Some (Returned (Bin DStar e e2, r)))
           | TLPar :: _ => None
           | _ => Some (Returned (e, rest))
           end)
  end
with parse_atom (fuel : nat) (ts : list Token) {struct fuel} : Parsed :=
  match fuel with
  | O => None
  | S f =>
      match ts with
      | TNum d :: rest => Some (Returned (Num (PyStr.int_of_digits d), rest))
      | TName x :: rest => Some (Returned (Var x, rest))
      | TLPar :: TRPar :: _ => None
      | TLPar :: rest =>
          and_then (parse_sum f rest)
            (fun e r =>
               match r with
               | TRPar :: r' => Some (Returned (e, r'))
               | _ => Some Raised
               end)
      | _ => Some Raised
      end
  end.

(** A whole expression: nothing may be left over.  The fragment stops at
    64 tokens, far below the nesting limits of the interpreter's own
    parser. *)
Definition parse (ts : list Token) : option (Outcome Expr) :=
  if (64 <? List.length ts)%nat then None
  else
    match parse_sum (5 * List.length ts + 10) ts with
    | Some (Returned (e, [])) => Some (Returned e)
    | Some (Returned (_, _ :: _)) => Some Raised
    | Some Raised => Some Raised
    | None => None
    end.

(** The value of a binary operation on two [int]s.  [/] makes a [float]
    and [**] with a negative exponent too: outside the fragment, as is a
    power of more than 2^20 bits.  [//] and [%] round towards minus
    infinity, as [Z.div] and [Z.modulo] do. *)
Definition binop (o : Op) (a b : Z) : option (Outcome Value) :=
  match o with
  | Plus => Some (Returned (VInt (a + b)))
  | Minus => Some (Returned (VInt (a - b)))
  | Star => Some (Returned (VInt (a * b)))
  | DSlash => Some (if (b =? 0)%Z then Raised else Returned (VInt (a / b)))
  | Percent => Some (if (b =? 0)%Z then Raised else Returned (VInt (a mod b)))
  | Slash => if (b =? 0)%Z then Some Raised else None
  | DStar =>
      if ((0 <=? b) && ((Z.log2 (Z.abs a) + 1) * b <=? 1048576))%Z
      then Some (Returned (VInt (a ^ b))) else None
  end.

Fixpoint eval_expr (sc : Scope) (e : Expr) : option (Outcome Value) :=
  match e with
  | Num z => Some (Returned (VInt z))
  | Var x => option_map Returned (lookup x sc)
  | Neg e1 =>
      match eval_expr sc e1 with
      | Some (Returned (VInt z)) => Some (Returned (VInt (- z)))
      | Some Raised => Some Raised
      | _ => None
      end
  | Pos e1 =>
      match eval_expr sc e1 with
      | Some (Returned (VInt z)) => Some (Returned (VInt z))
      | Some Raised => Some Raised
      | _ => None
      end
  | Bin o e1 e2 =>
      match eval_expr sc e1 with
      | Some (Returned (VInt a)) =>
          match eval_expr sc e2 with
          | Some (Returned (VInt b)) => binop o a b
          | Some Raised => Some Raised
          | _ => None
          end
      | Some Raised => Some Raised
      | _ => None
      end
  end.

(** [eval(src)] on the fragment: tokenize, parse, evaluate. *)
Definition arith_eval (sc : Scope) (src : string) : option (Outcome Value) :=
  match lex Idle src with
  | Some (Returned ts) =>
      match parse ts with
      | Some (Returned e) => eval_expr sc e
      | Some Raised => Some Raised
      | None => None
      end
  | Some Raised => Some Raised
  | None => None
  end.

(** An evaluator is admissible when it gives the fragment's answer
    wherever the fragment has one. *)
Definition agrees_on_arithmetic (eval : Evaluator) : Prop :=
  forall sc src o, arith_eval sc src = Some o -> eval sc src = o.

(** The least defined evaluator: outside the fragment every text is
    refused.  It shows that admissible evaluators exist. *)
Definition arithmetic_only : Evaluator :=
  fun sc src =>
    match arith_eval sc src with
    | Some o => o
    | None => Raised
    end.

(** *** The built-in [eval] in full

    Besides returning or raising an [Exception], a call can raise one of
    the exceptions outside [Exception] ([SystemExit], [KeyboardInterrupt],
    [GeneratorExit]), which an [except Exception] clause lets through, or
    not come back at all. *)
Inductive Completion (A : Type) : Type :=
| Completes (o : Outcome A)
| Exits
| Hangs.
Arguments Completes {A} o.
Arguments Exits {A}.
Arguments Hangs {A}.

(** An object [eval] returns: one of the values above, or an object of
    the text's own making, given by what [str()] does on it in full. *)
Inductive Object : Type :=
| Plain (v : Value)
| Custom (text : Completion string).

Definition str_full (x : Object) : Completion string :=
  match x with
  | Plain v => Completes (str v)
  | Custom text => text
  end.

Definition FullEvaluator : Type := Scope -> string -> Completion Object.

(** The calls [quit()] and [exit()] of the names the [site] module
    defines, unless the scope gives the name another meaning: they raise
    [SystemExit]. *)
Definition is_exit_call (sc : Scope) (src : string) : bool :=
  match lex Idle src with
  | Some (Returned [TName x; TLPar; TRPar]) =>
      (String.eqb x "quit" || String.eqb x "exit")
      && match lookup x sc with None => true | Some _ => false end
  | _ => false
  end.

Definition plain (o : Outcome Value) : Completion Object :=
  match o with
  | Returned v => Completes (Returned (Plain v))
  | Raised => Completes Raised
  end.

(** [eval(src)] on the texts decided here: the arithmetic fragment and
    the two calls that exit. *)
Definition full_eval (sc : Scope) (src : string) : option (Completion Object) :=
  if is_exit_call sc src then Some Exits
  else option_map plain (arith_eval sc src).

Definition agrees_with_python (eval : FullEvaluator) : Prop :=
  forall sc src c, full_eval sc src = Some c -> eval sc src = c.

(** The least defined evaluator in full. *)
Definition python_only : FullEvaluator :=
  fun sc src =>
    match full_eval sc src with
    | Some c => c
    | None => Completes Raised
    end.

End PyEval.

(* ================================================================= *)
(** ** [music_library.py] *)

Module MusicLibrary.

(** The dictionary [music], in the order of the file. *)
Definition music : list (string * string) :=
  [ ("shape of you", "https://youtu.be/JGwWNGJdvx8");
    ("blinding lights", "https://youtu.be/4NRXx6U8ABQ");
    ("perfect", "https://youtu.be/2Vv-BfVoq4g");
    ("someone like you", "https://youtu.be/hLQl3WQQoQ0");
    ("despacito", "https://youtu.be/kJQP7kiw5Fk");
    ("bad guy", "https://youtu.be/DyDfgMOUjCI");
    ("uptown funk", "https://youtu.be/OPf0YbXqDm0");
    ("hello", "https://youtu.be/YQHsXMglC9A");
    ("thinking out loud", "https://youtu.be/lp-EO5I60KA");
    ("rolling in the deep", "https://youtu.be/rYEDA3JcQqw");
    ("tum hi ho", "https://youtu.be/IJq0yyWug1k");
    ("kal ho na ho", "https://youtu.be/tVMAQAsjsOU");
    ("gerua", "https://youtu.be/AEIVhBS6baE");
    ("channa mereya", "https://youtu.be/bzSTpdcs-EI");
    ("ae dil hai mushkil", "https://youtu.be/8wU29tAcVys");
    ("raabta", "https://youtu.be/eHJPVRBV3nM");
    ("dil diyan gallan", "https://youtu.be/SAcpESN_Fk4");
    ("ishq wala love", "https://youtu.be/3HdGNBT6fa8");
    ("gulabi aankhein", "https://youtu.be/5M7aVNKffys");
    ("kabira", "https://youtu.be/jHNNMj5bNQw");
    ("bohemian rhapsody", "https://youtu.be/fJ9rUzIMcZQ");
    ("imagine", "https://youtu.be/YkgkThdzX-8");
    ("hotel california", "https://youtu.be/BciS5krYL80");
    ("sweet child of mine", "https://youtu.be/1w7OgIMMRc4");
    ("stairway to heaven", "https://youtu.be/QkF3oxziUI4");
    ("as it was", "https://youtu.be/H5v3kku4y6Q");
    ("heat waves", "https://youtu.be/mRD0-GxqHVo");
    ("stay", "https://youtu.be/kTJczUoc26U");
    ("levitating", "https://youtu.be/TUVcZfQe-Kw");
    ("good 4 u", "https://youtu.be/gNi_6U5Pm_o");
    ("lofi hip hop", "https://youtu.be/jfKfPfyJRdk");
    ("chill music", "https://youtu.be/5qap5aO4i9A");
    ("study music", "https://youtu.be/7NOSDKb0HlU");
    ("my playlist", "https://youtu.be/AbkEmIgJMcU?si=V6ETJmVWDU2zOEtq");
    ("workout playlist", "https://youtu.be/iFGc9vpN338");
    ("party songs", "https://youtu.be/ZbZSe6N_BXs");
    ("romantic songs", "https://youtu.be/IJq0yyWug1k") ].

End MusicLibrary.

(* ================================================================= *)
(** ** [Friday.py]: class [VoiceFridayAssistant] *)

Module Friday.

Import PyStr.
Import PyEval (Outcome, Returned, Raised, Value, VInt, VStr, VOther, Evaluator).
Import PyEval (Completion, Completes, Exits, Hangs, Object, Plain, Custom).

(** *** Collaborators *)

(** What [recognize_google] does with one utterance. *)
Inductive Speech : Type :=
| Recognized (text : string)
| WaitTimeoutError
| UnknownValueError
| RequestError
| OtherError.

Inductive Role : Type := system | user | assistant.

(** One entry of a chat request: [{'role': ..., 'content': ...}]. *)
Record Message : Type := { role : Role; content : string }.

(** The answer of [llama_client.chat]: a dict with a ['message'], whose
    content is then read, or another object, which is passed to [str]. *)
Inductive ChatResponse : Type :=
| MessageContent (text : Outcome string)
| OtherResponse (text : Outcome string).

(** The JSON answer of the weather service, fields already rendered. *)
Inductive WeatherReply : Type :=
| NotFound
| Conditions (weather temperature feels_like : string).

Record DateTime : Type := {
  year : nat; month : nat; day : nat; hour : nat; minute : nat
}.

(** What the assistant does to the outside world, oldest first.
    [Spoke] is a call of [speak] that reaches the synthesizer, [Printed]
    one that only prints its text. *)
Inductive Effect : Type :=
| Spoke (text : string)
| Listened (timeout : Z)
| Opened (url : string)
| Pressed (key : string) (presses : nat)
| Requested (url : string)
| Chatted (messages : list Message)
| Slept (seconds : Z)
| Printed (text : string).

(** The module-level flags and the services behind the imports;
    [sleep_max] is the longest length, in seconds, that [time.sleep]
    takes on the platform. *)
Record Env : Type := {
  eval : Evaluator;
  PYAUTOGUI_AVAILABLE : bool;
  WIKIPEDIA_AVAILABLE : bool;
  REQUESTS_AVAILABLE : bool;
  OLLAMA_AVAILABLE : bool;
  microphone : nat -> Speech;
  clock : nat -> DateTime;
  wikipedia_summary : string -> Outcome string;
  llama_chat : list Message -> Outcome ChatResponse;
  weather_service : string -> Outcome WeatherReply;
  sleep_max : Z
}.

(** The fields of [self], then the world: the utterances consumed so far,
    the trace of effects, and the reminder threads started. *)
Record VoiceFridayAssistant : Type := {
  is_listening : bool;
  conversation_context : list Message;
  llama_client : bool;
  active_reminders : list (string * Z);
  utterances : nat;
  trace : list Effect;
  threads : list (string * Z)
}.

Definition set_conversation_context (c : list Message) (a : VoiceFridayAssistant) :=
  {| is_listening := is_listening a; conversation_context := c;
     llama_client := llama_client a; active_reminders := active_reminders a;
     utterances := utterances a; trace := trace a; threads := threads a |}.

Definition set_active_reminders (r : list (string * Z)) (a : VoiceFridayAssistant) :=
  {| is_listening := is_listening a;
     conversation_context := conversation_context a;
     llama_client := llama_client a; active_reminders := r;
     utterances := utterances a; trace := trace a; threads := threads a |}.

Definition set_utterances (n : nat) (a : VoiceFridayAssistant) :=
  {| is_listening := is_listening a;
     conversation_context := conversation_context a;
     llama_client := llama_client a; active_reminders := active_reminders a;
     utterances := n; trace := trace a; threads := threads a |}.

Definition set_trace (t : list Effect) (a : VoiceFridayAssistant) :=
  {| is_listening := is_listening a;
     conversation_context := conversation_context a;
     llama_client := llama_client a; active_reminders := active_reminders a;
     utterances := utterances a; trace := t; threads := threads a |}.

Definition set_threads (t : list (string * Z)) (a : VoiceFridayAssistant) :=
  {| is_listening := is_listening a;
     conversation_context := conversation_context a;
     llama_client := llama_client a; active_reminders := active_reminders a;
     utterances := utterances a; trace := trace a; threads := t |}.

(** *** The state monad of the methods *)

Definition M (A : Type) : Type := VoiceFridayAssistant -> A * VoiceFridayAssistant.

Definition ret {A : Type} (x : A) : M A := fun a => (x, a).

Definition bind {A B : Type} (m : M A) (k : A -> M B) : M B :=
  fun a => let (x, a') := m a in k x a'.

Notation "x <- m ;; k" := (bind m (fun x => k))
  (at level 61, m at next level, right associativity).
Notation "m ;; k" := (bind m (fun _ => k))
  (at level 61, right associativity).

Definition effect (e : Effect) : M unit :=
  fun a => (tt, set_trace (trace a ++ [e]) a).

(** Python truth of a [str]. *)
Definition truthy (s : string) : bool :=
  match s with EmptyString => false | _ => true end.

(** [l[-n:]] for a positive [n] *)
Definition last_n {A : Type} (n : nat) (l : list A) : list A :=
  skipn (List.length l - n) l.

(** [l] without its entry of index [i]. *)
Definition remove_nth {A : Type} (i : nat) (l : list A) : list A :=
  firstn i l ++ skipn (S i) l.

(** [l.remove(x)] after [x in l]: the first occurrence goes. *)
Fixpoint remove_first (x : string * Z) (l : list (string * Z))
  : list (string * Z) :=
  match l with
  | [] => []
  | (s, m) :: rest =>
      if String.eqb (fst x) s && Z.eqb (snd x) m then rest
      else (s, m) :: remove_first x rest
  end.

Definition two_digits (n : nat) : string :=
  if (n <? 10)%nat then String "0" (str_of_int (Z.of_nat n))
  else str_of_int (Z.of_nat n).

Definition month_name (m : nat) : string :=
  nth (m - 1)
      [ "January"; "February"; "March"; "April"; "May"; "June"; "July";
        "August"; "September"; "October"; "November"; "December" ] "".

(** [strftime("%I:%M %p")] *)
Definition strftime_time (d : DateTime) : string :=
  let h := (hour d mod 12)%nat in
  (two_digits (if (h =? 0)%nat then 12 else h) ++ ":" ++ two_digits (minute d)
   ++ " " ++ (if (hour d <? 12)%nat then "AM" else "PM"))%string.

(** [strftime("%B %d, %Y")] *)
Definition strftime_date (d : DateTime) : string :=
  (month_name (month d) ++ " " ++ two_digits (day d) ++ ", "
   ++ str_of_int (Z.of_nat (year d)))%string.

Section Methods.

Variable env : Env.

(** [datetime.datetime.now()], read when the trace has its current
    length. *)
Definition now : M DateTime := fun a => (clock env (List.length (trace a)), a).

(** [speak]: the text is printed and handed to the synthesizer; a failure
    of the synthesizer is caught inside. *)
Definition speak (text : string) : M unit := effect (Spoke text).

(** [listen] *)
Definition listen (timeout : Z) : M string :=
  effect (Listened timeout) ;;
  fun a =>
    let a' := set_utterances (S (utterances a)) a in
    match microphone env (utterances a) with
    | Recognized command => (strip (lower command), a')
    | WaitTimeoutError => ("timeout", a')
    | UnknownValueError =>
        (speak "I couldn't understand that. Please try again." ;; ret "") a'
    | RequestError =>
        (speak "Speech service is unavailable right now." ;; ret "") a'
    | OtherError => ("", a')
    end.

Definition fallback_responses : list (string * string) :=
  [ ("hello", "Hello! I'm Friday, your voice assistant. How can I help you today?");
    ("how are you", "I'm doing great and ready to help you with anything you need!");
    ("what can you do", "I can help with opening websites, telling time, weather updates, calculations, reminders, and much more!");
    ("default", "I'm sorry, my AI brain isn't fully connected right now, but I can still help with basic tasks like opening websites, telling time, and controlling your system.") ].

Definition system_prompts : list (string * string) :=
  [ ("general", "You are Friday, a helpful voice assistant. Give concise, conversational responses suitable for text-to-speech. Keep responses under 100 words unless specifically asked for detailed information. Be friendly and natural.");
    ("task", "You are Friday, a voice assistant helping with tasks. Provide step-by-step instructions clearly and concisely for voice delivery.");
    ("creative", "You are Friday, a creative voice assistant. Provide engaging, imaginative content suitable for audio delivery.") ].

(** [d[key]] for a key of the table. *)
Definition item (key : string) (d : list (string * string)) : string :=
  match get key d with Some v => v | None => "" end.

(** [d.get(key, default)] *)
Definition get_default (key : string) (d : list (string * string))
  (default : string) : string :=
  match get key d with Some v => v | None => default end.

(** The text [ask_llama] takes from a chat response. *)
Definition response_text (r : ChatResponse) : Outcome string :=
  match r with
  | MessageContent text => PyEval.bind text (fun s => Returned (strip s))
  | OtherResponse text => PyEval.bind text (fun s => Returned (strip s))
  end.

(** The request [ask_llama] sends: the system prompt of the context type,
    the last three exchanges, the question. *)
Definition request_messages (question context_type : string)
  (a : VoiceFridayAssistant) : list Message :=
  let system_prompt :=
    get_default context_type system_prompts (item "general" system_prompts) in
  [ {| role := system; content := system_prompt |} ]
  ++ last_n 6 (conversation_context a)
  ++ [ {| role := user; content := question |} ].

(** The [try] body of [ask_llama] up to [ai_response]. *)
Definition answer (question context_type : string) (a : VoiceFridayAssistant)
  : Outcome string :=
  PyEval.bind (llama_chat env (request_messages question context_type a))
              response_text.

(** [ask_llama] *)
Definition ask_llama (question context_type : string) : M string :=
  fun a =>
    if negb (llama_client a) then
      let question_lower := lower question in
      match find (fun kr => contains (fst kr) question_lower) fallback_responses with
      | Some (_, response) => (response, a)
      | None => (item "default" fallback_responses, a)
      end
    else
      let a1 :=
        set_trace (trace a ++ [Chatted (request_messages question context_type a)]) a in
      match answer question context_type a with
      | Returned ai_response =>
          let context :=
            conversation_context a1
            ++ [ {| role := user; content := question |};
                 {| role := assistant; content := ai_response |} ] in
          let context :=
            if (20 <? List.length context)%nat then last_n 20 context
            else context in
          (ai_response, set_conversation_context context a1)
      | Raised =>
          ("I'm having trouble connecting to my AI brain right now, but I'm still here to help with other tasks!", a1)
      end.

(** [get_weather], with the value of its local [api_key] as a parameter. *)
Definition get_weather_with (api_key city : string) : M string :=
  if negb (REQUESTS_AVAILABLE env) then
    ret "Weather service requires the requests package. Please install it."
  else if String.eqb api_key "YOUR_WEATHER_API_KEY" then
    ret "Please configure weather API key for weather updates."
  else
    let base_url := "http://api.openweathermap.org/data/2.5/weather?" in
    let complete_url :=
      (base_url ++ "appid=" ++ api_key ++ "&q=" ++ city ++ "&units=metric")%string in
    effect (Requested complete_url) ;;
    match weather_service env complete_url with
    | Returned (Conditions weather temperature feels_like) =>
        ret ("Weather in " ++ city ++ ": " ++ weather ++ ", " ++ temperature
             ++ " degrees, feels like " ++ feels_like ++ " degrees.")%string
    | Returned NotFound =>
        ret ("Sorry, I couldn't find weather information for " ++ city ++ ".")%string
    | Raised => ret "Weather service is currently unavailable."
    end.

(** [get_weather]: the source assigns the placeholder to [api_key]. *)
Definition get_weather (city : string) : M string :=
  get_weather_with "YOUR_WEATHER_API_KEY" city.

(** The longest sleep: [time.sleep] converts the length to nanoseconds
    in 64 bits and raises [OverflowError] beyond 2^63 - 1 of them
    (9223372036 seconds); the platform may stop before that. *)
Definition longest_sleep : Z := Z.min 9223372036 (sleep_max env).

(** [time.sleep(seconds)] raises: a [ValueError] on a negative length,
    an [OverflowError] or [OSError] on one that is too long. *)
Definition time_sleep_raises (seconds : Z) : bool :=
  ((seconds <? 0) || (longest_sleep <? seconds))%Z.

(** The body of [reminder_thread] for one reminder.  An exception of
    [time.sleep] ends the thread. *)
Definition reminder_thread (reminder_text : string) (minutes : Z) : M unit :=
  if time_sleep_raises (minutes * 60) then ret tt
  else
    effect (Slept (minutes * 60)) ;;
    speak ("Reminder alert! " ++ reminder_text) ;;
    fun a =>
      if existsb (fun r => String.eqb reminder_text (fst r) && Z.eqb minutes (snd r))
                 (active_reminders a)
      then (tt, set_active_reminders
                  (remove_first (reminder_text, minutes) (active_reminders a)) a)
      else (tt, a).

(** [set_reminder_voice].  The confirmation is formatted as it is for a
    delay of at most 4300 digits; the router passes no other. *)
Definition set_reminder_voice (reminder_text : string) (minutes : Z) : M string :=
  fun a =>
    let a1 := set_active_reminders
                (active_reminders a ++ [(reminder_text, minutes)]) a in
    let a2 := set_threads (threads a1 ++ [(reminder_text, minutes)]) a1 in
    (("Reminder set for " ++ str_of_int minutes ++ " minutes: " ++ reminder_text)%string,
     a2).

(** The scheduler lets the pending thread of index [i] run to its end. *)
Definition run_thread (i : nat) : M unit :=
  fun a =>
    match nth_error (threads a) i with
    | Some (reminder_text, minutes) =>
        reminder_thread reminder_text minutes
          (set_threads (remove_nth i (threads a)) a)
    | None => (tt, a)
    end.

Definition word_to_num : list (string * string) :=
  [ ("zero", "0"); ("one", "1"); ("two", "2"); ("three", "3"); ("four", "4");
    ("five", "5"); ("six", "6"); ("seven", "7"); ("eight", "8"); ("nine", "9");
    ("ten", "10"); ("eleven", "11"); ("twelve", "12"); ("thirteen", "13");
    ("fourteen", "14"); ("fifteen", "15"); ("sixteen", "16"); ("seventeen", "17");
    ("eighteen", "18"); ("nineteen", "19"); ("twenty", "20") ].

(** The [for word, num in word_to_num.items()] loop. *)
Definition replace_words (table : list (string * string)) (expression : string)
  : string :=
  fold_left (fun e wn => replace (fst wn) (snd wn) e) table expression.

(** The first half of [voice_calculator]: the text handed to [eval]. *)
Definition normalized (expression : string) : string :=
  let expression :=
    strip (replace "what is" "" (replace "calculate" "" expression)) in
  let expression := replace "add" "+" (replace "plus" "+" expression) in
  let expression := replace "subtract" "-" (replace "minus" "-" expression) in
  let expression := replace "multiply" "*" (replace "times" "*" expression) in
  let expression := replace "divide" "/" (replace "divided by" "/" expression) in
  let expression :=
    replace "squared" "**2" (replace "to the power of" "**" expression) in
  let expression := replace "cubed" "**3" expression in
  replace_words word_to_num expression.

(** The string-valued locals of [voice_calculator] when [eval] runs:
    [expression], and the loop variables left at the last table entry. *)
Definition calculator_scope (expression : string) : PyEval.Scope :=
  let last_entry := List.last word_to_num ("", "") in
  [ ("expression", VStr expression);
    ("word", VStr (fst last_entry));
    ("num", VStr (snd last_entry)) ].

Definition calculator_failure : string :=
  "I couldn't calculate that. Please try rephrasing the math problem.".

(** [voice_calculator] *)
Definition voice_calculator (expression : string) : string :=
  let expression := normalized expression in
  match PyEval.bind (eval env (calculator_scope expression) expression) PyEval.str with
  | Returned result => ("The answer is " ++ result)%string
  | Raised => calculator_failure
  end.

(** [voice_calculator] with [eval] in full: [except Exception] catches
    what the evaluation and the f-string raise inside [Exception]; an
    exception outside it leaves the method. *)
Definition voice_calculator_full (eval : PyEval.FullEvaluator)
  (expression : string) : Completion string :=
  let expression := normalized expression in
  match eval (calculator_scope expression) expression with
  | Completes (Returned result) =>
      match PyEval.str_full result with
      | Completes (Returned text) =>
          Completes (Returned ("The answer is " ++ text)%string)
      | Completes Raised => Completes (Returned calculator_failure)
      | Exits => Exits
      | Hangs => Hangs
      end
  | Completes Raised => Completes (Returned calculator_failure)
  | Exits => Exits
  | Hangs => Hangs
  end.

(** [if x: body] for a body without result. *)
Definition when (b : bool) (body : M unit) : M unit :=
  if b then body else ret tt.

(** The city named after the word [in], in the weather branch. *)
Definition weather_city (command : string) : string :=
  if contains "in" command then
    let words := split command in
    if list_in "in" words then
      match index "in" words with
      | Some i =>
          let city_index := (i + 1)%nat in
          if (city_index <? List.length words)%nat
          then nth city_index words "Delhi" else "Delhi"
      | None => "Delhi"
      end
    else "Delhi"
  else "Delhi".

(** The test of the last branch: which system prompt the chat gets. *)
Definition context_type_of (command : string) : string :=
  if any_in ["how to"; "steps"; "guide"; "tutorial"] command then "task"
  else if any_in ["story"; "poem"; "creative"; "imagine"] command then "creative"
  else "general".

(** [handle_voice_command] *)
Definition handle_voice_command (command : string) : M string :=
  if any_in ["exit"; "quit"; "goodbye friday"] command then
    speak "Goodbye boss, Friday is going offline!" ;;
    ret "exit"
  else if any_in ["stop listening"; "sleep friday"] command then
    speak "I'll stop listening. Say 'Friday' to wake me up again." ;;
    ret "sleep"
  else if any_in ["open youtube"; "youtube"] command then
    effect (Opened "https://youtube.com") ;;
    speak "Opening YouTube" ;;
    ret "continue"
  else if any_in ["open instagram"; "instagram"] command then
    effect (Opened "https://instagram.com") ;;
    speak "Opening Instagram" ;;
    ret "continue"
  else if any_in ["open github"; "github"] command then
    effect (Opened "https://github.com") ;;
    speak "Opening GitHub" ;;
    ret "continue"
  else if any_in ["open google"; "google search"] command then
    speak "What would you like me to search for?" ;;
    search_query <- listen 5 ;;
    when (truthy search_query && negb (String.eqb search_query "timeout"))
      (effect (Opened ("https://www.google.com/search?q=" ++ search_query)) ;;
       speak ("Searching Google for " ++ search_query)) ;;
    ret "continue"
  else if contains "time" command then
    current <- now ;;
    speak ("It's " ++ strftime_time current) ;;
    ret "continue"
  else if contains "date" command then
    current <- now ;;
    speak ("Today is " ++ strftime_date current) ;;
    ret "continue"
  else if contains "weather" command then
    weather_info <- get_weather (weather_city command) ;;
    speak weather_info ;;
    ret "continue"
  else if any_in ["calculate"; "math"; "what is"; "plus"; "minus"; "times"; "divide"]
                 command then
    speak (voice_calculator command) ;;
    ret "continue"
  else if any_in ["remind me"; "set reminder"] command then
    speak "What should I remind you about?" ;;
    reminder_text <- listen 5 ;;
    when (truthy reminder_text && negb (String.eqb reminder_text "timeout"))
      (speak "In how many minutes?" ;;
       time_input <- listen 5 ;;
       match search_digits time_input with
       | Some digits =>
           match int_of_text digits with
           | Some minutes =>
               result <- set_reminder_voice reminder_text minutes ;;
               speak result
           | None => speak "I didn't understand the time. Please try again."
           end
       | None => speak "I didn't understand the time. Please try again."
       end) ;;
    ret "continue"
  else if contains "volume up" command then
    (if PYAUTOGUI_AVAILABLE env
     then effect (Pressed "volumeup" 3) ;; speak "Volume increased"
     else speak "System control not available") ;;
    ret "continue"
  else if contains "volume down" command then
    (if PYAUTOGUI_AVAILABLE env
     then effect (Pressed "volumedown" 3) ;; speak "Volume decreased"
     else speak "System control not available") ;;
    ret "continue"
  else if contains "mute" command then
    (if PYAUTOGUI_AVAILABLE env
     then effect (Pressed "volumemute" 1) ;; speak "Audio muted"
     else speak "System control not available") ;;
    ret "continue"
  else if any_in ["tell me about"; "information about"] command then
    let topic :=
      strip (replace "information about" "" (replace "tell me about" "" command)) in
    topic <- (if truthy topic then ret topic
              else speak "What would you like to know about?" ;; listen 5) ;;
    when (truthy topic && negb (String.eqb topic "timeout"))
      (if WIKIPEDIA_AVAILABLE env then
         match wikipedia_summary env topic with
         | Returned info => speak info
         | Raised =>
             fun a =>
               if llama_client a then
                 (response <- ask_llama ("Tell me about " ++ topic) "general" ;;
                  speak response) a
               else
                 speak ("I don't have detailed information about " ++ topic
                        ++ " right now.") a
         end
       else
         response <- ask_llama ("Tell me about " ++ topic) "general" ;;
         speak response) ;;
    ret "continue"
  else if startswith "play" command then
    let song := strip (replace "play" "" command) in
    match get song MusicLibrary.music with
    | Some url =>
        effect (Opened url) ;;
        speak ("Playing " ++ song) ;;
        ret "continue"
    | None =>
        let search_query := replace " " "+" song in
        effect (Opened ("https://www.youtube.com/results?search_query=" ++ search_query)) ;;
        speak ("Searching for " ++ song ++ " on YouTube") ;;
        ret "continue"
    end
  else
    response <- ask_llama command (context_type_of command) ;;
    speak response ;;
    ret "continue".

(** What one pass through the body of the [while] loop of [run] decides. *)
Inductive Control : Type := Break | Continue.

(** The body of the loop in [run]. *)
Definition run_body : M Control :=
  wake_word <- listen 10 ;;
  if String.eqb wake_word "timeout" then ret Continue
  else if contains "friday" wake_word then
    speak "Yes boss, I'm listening!" ;;
    command <- listen 15 ;;
    if truthy command && negb (String.eqb command "timeout") then
      result <- handle_voice_command command ;;
      if String.eqb result "exit" then ret Break
      else if String.eqb result "sleep" then ret Continue
      else ret Continue
    else
      speak "I'm ready when you are. Just say something!" ;;
      ret Continue
  else ret Continue.

(** [while self.is_listening: ...], for at most [fuel] passes.  The result
    is [true] when the loop has ended. *)
Fixpoint run_loop (fuel : nat) : M bool :=
  match fuel with
  | O => fun a => (negb (is_listening a), a)
  | S f =>
      fun a =>
        if is_listening a then
          (c <- run_body ;;
           match c with
           | Break => ret true
           | Continue => run_loop f
           end) a
        else (true, a)
  end.

(** [run] *)
Definition run (fuel : nat) : M bool :=
  speak "Friday voice assistant activated! I'm powered by Llama2 AI and completely voice operated." ;;
  speak "Say 'Friday' to get my attention, then speak your command." ;;
  run_loop fuel.

(** [speak] before [__init__] has assigned [voice_lang] and [voice_slow]:
    the text is printed, reading [self.voice_lang] raises an
    [AttributeError] inside the [try] of [speak], and nothing reaches the
    synthesizer. *)
Definition speak_unvoiced (text : string) : M unit := effect (Printed text).

(** [initialize_llama], on the client [__init__] has just made.
    [__init__] calls it before it assigns the voice settings. *)
Definition initialize_llama : M unit :=
  fun a =>
    if negb (OLLAMA_AVAILABLE env) then
      speak_unvoiced "AI features limited. Ollama not installed." a
    else if negb (llama_client a) then
      speak_unvoiced "Warning: Llama2 model not available. I'll work with basic functions." a
    else
      let messages := [ {| role := user; content := "Hello, are you working?" |} ] in
      let a1 := set_trace (trace a ++ [Chatted messages]) a in
      match llama_chat env messages with
      | Returned _ => speak_unvoiced "Llama2 AI model connected successfully!" a1
      | Raised =>
          let (_, a2) :=
            speak_unvoiced "Warning: Llama2 model not available. I'll work with basic functions." a1 in
          (tt, {| is_listening := is_listening a2;
                  conversation_context := conversation_context a2;
                  llama_client := false;
                  active_reminders := active_reminders a2;
                  utterances := utterances a2; trace := trace a2;
                  threads := threads a2 |})
      end.

(** [__init__]; [client_made] tells whether [Client(host=...)] returned. *)
Definition init (client_made : bool) : VoiceFridayAssistant :=
  snd (initialize_llama
         {| is_listening := true;
            conversation_context := [];
            llama_client := OLLAMA_AVAILABLE env && client_made;
            active_reminders := [];
            utterances := 0; trace := []; threads := [] |}).

End Methods.

(** *** Vocabulary of the statements *)

(** The keyword tests of [handle_voice_command] that come before the
    [play] branch, in the order of the source. *)
Definition keyword_before_play (command : string) : bool :=
  any_in ["exit"; "quit"; "goodbye friday"] command
  || any_in ["stop listening"; "sleep friday"] command
  || any_in ["open youtube"; "youtube"] command
  || any_in ["open instagram"; "instagram"] command
  || any_in ["open github"; "github"] command
  || any_in ["open google"; "google search"] command
  || contains "time" command
  || contains "date" command
  || contains "weather" command
  || any_in ["calculate"; "math"; "what is"; "plus"; "minus"; "times"; "divide"] command
  || any_in ["remind me"; "set reminder"] command
  || contains "volume up" command
  || contains "volume down" command
  || contains "mute" command
  || any_in ["tell me about"; "information about"] command.

(** The command passes the test of some branch other than the last. *)
Definition router_keyword (command : string) : bool :=
  keyword_before_play command || startswith "play" command.

(** The last branch of [handle_voice_command] with its context type
    given. *)
Definition converse (env : Env) (command context_type : string) : M string :=
  response <- ask_llama env command context_type ;;
  speak response ;;
  ret "continue".

(** Every run of [m] from a state in [I] ends in a state in [I]. *)
Definition stable {A : Type} (I : VoiceFridayAssistant -> Prop) (m : M A) : Prop :=
  forall a, I a -> I (snd (m a)).

(** Every run of [m] returns a value in [P]. *)
Definition returns {A : Type} (P : A -> Prop) (m : M A) : Prop :=
  forall a, P (fst (m a)).

(** The microphone's next two utterances at [a] are a phrase with the wake
    word and then [command]. *)
Definition hears (env : Env) (a : VoiceFridayAssistant) (command : string) : Prop :=
  exists wake said,
    microphone env (utterances a) = Recognized wake /\
    contains "friday" (strip (lower wake)) = true /\
    microphone env (S (utterances a)) = Recognized said /\
    strip (lower said) = command.

(** The turns one call of [ask_llama] appends to the context: two when
    the chat answered, none otherwise. *)
Definition turns_of_call (env : Env) (question context_type : string)
  (a : VoiceFridayAssistant) : list Message :=
  if llama_client a then
    match answer env question context_type a with
    | Returned ai_response =>
        [ {| role := user; content := question |};
          {| role := assistant; content := ai_response |} ]
    | Raised => []
    end
  else [].

(** A sequence of calls [ask_llama(question, context_type)]. *)
Fixpoint ask_all (env : Env) (calls : list (string * string))
  (a : VoiceFridayAssistant) : VoiceFridayAssistant :=
  match calls with
  | [] => a
  | (question, context_type) :: rest =>
      ask_all env rest (snd (ask_llama env question context_type a))
  end.

(** All the turns those calls append, oldest first. *)
Fixpoint turns_added (env : Env) (calls : list (string * string))
  (a : VoiceFridayAssistant) : list Message :=
  match calls with
  | [] => []
  | (question, context_type) :: rest =>
      turns_of_call env question context_type a
      ++ turns_added env rest (snd (ask_llama env question context_type a))
  end.

(** An environment for examples: nothing optional is installed, the
    evaluator knows arithmetic only, and the user says the wake word and
    then asks to exit. *)
Definition sample_env : Env := {|
  eval := PyEval.arithmetic_only;
  PYAUTOGUI_AVAILABLE := false;
  WIKIPEDIA_AVAILABLE := false;
  REQUESTS_AVAILABLE := true;
  OLLAMA_AVAILABLE := false;
  microphone := fun n =>
    match n with
    | O => Recognized "Hey Friday"
    | S O => Recognized " Please EXIT now "
    | _ => WaitTimeoutError
    end;
  clock := fun _ => {| year := 2024; month := 3; day := 7; hour := 9; minute := 5 |};
  wikipedia_summary := fun _ => Raised;
  llama_chat := fun _ => Raised;
  weather_service := fun _ => Raised;
  sleep_max := 9223372036
|}.

(** An environment in which the chat model is connected and answers every
    request the same way. *)
Definition chatty_env : Env := {|
  eval := PyEval.arithmetic_only;
  PYAUTOGUI_AVAILABLE := true;
  WIKIPEDIA_AVAILABLE := true;
  REQUESTS_AVAILABLE := true;
  OLLAMA_AVAILABLE := true;
  microphone := fun _ => WaitTimeoutError;
  clock := fun _ => {| year := 2024; month := 3; day := 7; hour := 9; minute := 5 |};
  wikipedia_summary := fun _ => Raised;
  llama_chat := fun _ => Returned (MessageContent (Returned " At your service. "));
  weather_service := fun _ => Raised;
  sleep_max := 9223372036
|}.

(** How many times a reminder stands in the active list. *)
Definition occurrences (x : string * Z) (l : list (string * Z)) : nat :=
  List.length (filter (fun r => String.eqb (fst x) (fst r) && Z.eqb (snd x) (snd r)) l).

(** The turns of a list of exchanges (question, answer), oldest first. *)
Definition turns_of (exchanges : list (string * string)) : list Message :=
  flat_map (fun qa => [ {| role := user; content := fst qa |};
                        {| role := assistant; content := snd qa |} ])
           exchanges.

(** The context is made of at most ten whole exchanges. *)
Definition whole_exchanges (a : VoiceFridayAssistant) : Prop :=
  exists exchanges,
    conversation_context a = turns_of exchanges /\
    (List.length exchanges <= 10)%nat.

(** From a state in [I], [m] ends in a state in [I] and has only added
    effects in [P] to the trace. *)
Definition confined {A : Type} (I : VoiceFridayAssistant -> Prop)
  (P : Effect -> Prop) (m : M A) : Prop :=
  forall a,
    I a ->
    I (snd (m a)) /\
    exists added, trace (snd (m a)) = trace a ++ added /\ Forall P added.

(** The effects a session may have, given the flag of the key-press
    library and whether the chat client is connected. *)
Definition allowed (env : Env) (connected : bool) (e : Effect) : Prop :=
  match e with
  | Spoke _ | Listened _ | Opened _ => True
  | Pressed _ _ => PYAUTOGUI_AVAILABLE env = true
  | Chatted _ => connected = true
  | Requested _ | Slept _ | Printed _ => False
  end.

(** [time.sleep] takes the delay of [minutes]. *)
Definition sleepable (env : Env) (minutes : Z) : bool :=
  negb (time_sleep_raises env (minutes * 60)).

(** The active reminders are those whose thread is pending and, besides,
    reminders with a delay that [time.sleep] refuses; no pending delay is
    negative. *)
Definition reminders_pending (env : Env) (a : VoiceFridayAssistant) : Prop :=
  (exists stale,
      Permutation (active_reminders a) (threads a ++ stale) /\
      Forall (fun r => sleepable env (snd r) = false) stale) /\
  Forall (fun r => (0 <= snd r)%Z) (threads a).

(** An environment in which the user says the wake word, asks for a
    reminder and answers the two questions. *)
Definition reminding_env : Env := {|
  eval := PyEval.arithmetic_only;
  PYAUTOGUI_AVAILABLE := false;
  WIKIPEDIA_AVAILABLE := false;
  REQUESTS_AVAILABLE := false;
  OLLAMA_AVAILABLE := false;
  microphone := fun n =>
    match n with
    | 0%nat => Recognized "Friday"
    | 1%nat => Recognized "Remind me"
    | 2%nat => Recognized "drink water"
    | 3%nat => Recognized "in minus 5 minutes"
    | _ => WaitTimeoutError
    end;
  clock := fun _ => {| year := 2024; month := 3; day := 7; hour := 9; minute := 5 |};
  wikipedia_summary := fun _ => Raised;
  llama_chat := fun _ => Raised;
  weather_service := fun _ => Raised;
  sleep_max := 9223372036
|}.

(** The texts handed to [speak] among the effects [l], in order. *)
Fixpoint spoken (l : list Effect) : list string :=
  match l with
  | [] => []
  | Spoke text :: rest => text :: spoken rest
  | _ :: rest => spoken rest
  end.

(** The keyword tests of [handle_voice_command] that come before the
    lookup branch, in the order of the source. *)
Definition keyword_before_lookup (command : string) : bool :=
  any_in ["exit"; "quit"; "goodbye friday"] command
  || any_in ["stop listening"; "sleep friday"] command
  || any_in ["open youtube"; "youtube"] command
  || any_in ["open instagram"; "instagram"] command
  || any_in ["open github"; "github"] command
  || any_in ["open google"; "google search"] command
  || contains "time" command
  || contains "date" command
  || contains "weather" command
  || any_in ["calculate"; "math"; "what is"; "plus"; "minus"; "times"; "divide"] command
  || any_in ["remind me"; "set reminder"] command
  || contains "volume up" command
  || contains "volume down" command
  || contains "mute" command.

(** The topic the lookup branch reads from the command. *)
Definition topic_of (command : string) : string :=
  strip (replace "information about" "" (replace "tell me about" "" command)).

(** The command reaches the lookup branch and its topic is the word
    "timeout". *)
Definition silent_lookup (command : string) : bool :=
  negb (keyword_before_lookup command)
  && any_in ["tell me about"; "information about"] command
  && String.eqb (topic_of command) "timeout".

(** [m] only adds to the trace. *)
Definition grows {A : Type} (m : M A) : Prop :=
  confined (fun _ => True) (fun _ => True) m.

(** [m] adds to the trace, a call of [speak] among the rest. *)
Definition replies {A : Type} (m : M A) : Prop :=
  forall a,
    exists added, trace (snd (m a)) = trace a ++ added /\ spoken added <> [].

(** The utterance is not a phrase with the wake word. *)
Definition no_wake_word (s : Speech) : Prop :=
  forall text, s = Recognized text -> contains "friday" (strip (lower text)) = false.

(** What the loop does while it waits for the wake word: it listens for
    ten seconds, and apologizes when the recognizer fails. *)
Definition waiting_effect (e : Effect) : Prop :=
  match e with
  | Listened timeout => timeout = 10%Z
  | Spoke text =>
      text = "I couldn't understand that. Please try again." \/
      text = "Speech service is unavailable right now."
  | _ => False
  end.

(** An environment in which the user keeps saying "exit" and never the
    wake word. *)
Definition unaddressed_env : Env := {|
  eval := PyEval.arithmetic_only;
  PYAUTOGUI_AVAILABLE := true;
  WIKIPEDIA_AVAILABLE := true;
  REQUESTS_AVAILABLE := true;
  OLLAMA_AVAILABLE := false;
  microphone := fun _ => Recognized "Exit";
  clock := fun _ => {| year := 2024; month := 3; day := 7; hour := 9; minute := 5 |};
  wikipedia_summary := fun _ => Raised;
  llama_chat := fun _ => Raised;
  weather_service := fun _ => Raised;
  sleep_max := 9223372036
|}.

(** The request [initialize_llama] tests the connection with. *)
Definition test_messages : list Message :=
  [ {| role := user; content := "Hello, are you working?" |} ].

(** The start-up test of the chat model goes through: the package is
    installed, the client was made and the test request is answered. *)
Definition chat_ready (env : Env) (client_made : bool) : Prop :=
  OLLAMA_AVAILABLE env = true /\ client_made = true /\
  exists response, llama_chat env test_messages = Returned response.

(** The texts among the effects [l] that [speak] only printed, in
    order. *)
Fixpoint printed (l : list Effect) : list string :=
  match l with
  | [] => []
  | Printed text :: rest => text :: printed rest
  | _ :: rest => printed rest
  end.

(** The requests sent to the chat model among the effects [l]. *)
Fixpoint chats (l : list Effect) : list (list Message) :=
  match l with
  | [] => []
  | Chatted messages :: rest => messages :: chats rest
  | _ :: rest => chats rest
  end.

(** [c] is one of a-z. *)
Definition islower (c : ascii) : bool :=
  let n := nat_of_ascii c in ((97 <=? n) && (n <=? 122))%nat.

(** No character of [s] is one of a-z. *)
Fixpoint letter_free (s : string) : bool :=
  match s with
  | EmptyString => true
  | String c rest => negb (islower c) && letter_free rest
  end.

(** An operand of a calculation: a text without letters that is not empty
    and has no white space at either end, such as 12, 2.5 or (3 + 4). *)
Definition operand (s : string) : Prop :=
  letter_free s = true /\ strip s = s /\ s <> "".

(** Every character of [s] is one of a-z or white space. *)
Fixpoint wordy (s : string) : bool :=
  match s with
  | EmptyString => true
  | String c rest => (islower c || isspace c) && wordy rest
  end.

(** A phrase the calculator replaces: words, the first character a
    letter. *)
Definition phrase (s : string) : bool :=
  match s with
  | EmptyString => false
  | String c rest => islower c && wordy rest
  end.

(** The two parts of [normalized] around its [strip]. *)
Definition without_lead (expression : string) : string :=
  replace "what is" "" (replace "calculate" "" expression).

Definition symbols (expression : string) : string :=
  let expression := replace "add" "+" (replace "plus" "+" expression) in
  let expression := replace "subtract" "-" (replace "minus" "-" expression) in
  let expression := replace "multiply" "*" (replace "times" "*" expression) in
  let expression := replace "divide" "/" (replace "divided by" "/" expression) in
  let expression :=
    replace "squared" "**2" (replace "to the power of" "**" expression) in
  let expression := replace "cubed" "**3" expression in
  replace_words word_to_num expression.

(** The operator phrases of [voice_calculator] with their symbols, in the
    order of the source, and the phrases it drops. *)
Definition operator_words : list (string * string) :=
  [ ("plus", "+"); ("add", "+"); ("minus", "-"); ("subtract", "-");
    ("times", "*"); ("multiply", "*"); ("divided by", "/"); ("divide", "/");
    ("to the power of", "**"); ("squared", "**2"); ("cubed", "**3") ].

Definition calculator_leads : list string := [ ""; "calculate "; "what is " ].

(** Two assistants that differ in their traces at most. *)
Definition same_but_trace (a b : VoiceFridayAssistant) : Prop :=
  set_trace [] a = set_trace [] b.

(* ================================================================= *)
(** ** Theorems *)

Section Router.

Variable env : Env.

Lemma returns_ret {A : Type} (P : A -> Prop) (x : A) : P x -> returns P (ret x).
Proof. intros H a. exact H. Qed.

Lemma returns_bind {A B : Type} (P : B -> Prop) (m : M A) (k : A -> M B) :
  (forall x, returns P (k x)) -> returns P (bind m k).
Proof.
  intros H a. unfold bind. destruct (m a) as [x a']. apply H.
Qed.

(** The first branch: an exit keyword anywhere in the command. *)
Lemma exit_branch (command : string) (a : VoiceFridayAssistant) :
  any_in ["exit"; "quit"; "goodbye friday"] command = true ->
  handle_voice_command env command a =
    ("exit", set_trace (trace a ++ [Spoke "Goodbye boss, Friday is going offline!"]) a).
Proof.
  intros H. unfold handle_voice_command. rewrite H. reflexivity.
Qed.

(** Past the first branch nothing returns ["exit"]. *)
Lemma other_branches (command : string) :
  any_in ["exit"; "quit"; "goodbye friday"] command = false ->
  returns (fun r =>
             if any_in ["stop listening"; "sleep friday"] command
             then r = "sleep" else r = "continue")
          (handle_voice_command env command).
Proof.
  intros H. unfold handle_voice_command. rewrite H.
  destruct (any_in ["stop listening"; "sleep friday"] command).
  { apply returns_bind; intros; apply returns_ret; reflexivity. }
  repeat lazymatch goal with
    | |- returns _ (if ?c then _ else _) => destruct c
    | |- returns _ (match ?x with Some _ => _ | None => _ end) => destruct x
    | |- returns _ (bind _ _) => apply returns_bind; intros
    | |- returns _ (ret _) => apply returns_ret; reflexivity
    end.
Qed.

Lemma keyword_before_play_false (command : string) :
  keyword_before_play command = false ->
  forall a,
    handle_voice_command env command a =
      (if startswith "play" command then
         let song := strip (replace "play" "" command) in
         match get song MusicLibrary.music with
         | Some url =>
             effect (Opened url) ;; speak ("Playing " ++ song) ;; ret "continue"
         | None =>
             effect (Opened ("https://www.youtube.com/results?search_query="
                             ++ replace " " "+" song)) ;;
             speak ("Searching for " ++ song ++ " on YouTube") ;;
             ret "continue"
         end
       else converse env command (context_type_of command)) a.
Proof.
  unfold keyword_before_play. intros H a.
  do 14 (apply orb_false_elim in H; destruct H as [H ?]).
  unfold handle_voice_command.
  repeat match goal with
         | E : _ = false |- _ => rewrite E; clear E
         end.
  reflexivity.
Qed.

(** One pass of the loop that hears the wake word and then a command
    with an exit keyword breaks out. *)
Lemma run_body_exit (command : string) (a : VoiceFridayAssistant) :
  any_in ["exit"; "quit"; "goodbye friday"] command = true ->
  hears env a command ->
  fst (run_body env a) = Break.
Proof.
  intros Hexit (wake & said & Hw & Hfriday & Hs & Hcmd).
  unfold run_body, listen, bind, effect. cbn [utterances set_trace set_utterances].
  rewrite Hw.
  destruct (String.eqb_spec (strip (lower wake)) "timeout") as [E | _].
  { rewrite E in Hfriday. discriminate Hfriday. }
  rewrite Hfriday. unfold speak, effect. cbn [utterances set_trace set_utterances].
  rewrite Hs, Hcmd.
  assert (Hgo : truthy command && negb (String.eqb command "timeout") = true).
  { destruct command as [| c rest]; [discriminate Hexit |].
    destruct (String.eqb_spec (String c rest) "timeout") as [E | _];
      [rewrite E in Hexit; discriminate Hexit | reflexivity]. }
  rewrite Hgo, exit_branch by exact Hexit. reflexivity.
Qed.

(** Passes that did not end the loop can be run first. *)
Lemma run_loop_app (k : nat) :
  forall a a', run_loop env k a = (false, a') ->
  forall n, run_loop env (k + n) a = run_loop env n a'.
Proof.
  induction k as [| k IH]; intros a a' H n.
  - cbn in H. injection H as Hl <-. reflexivity.
  - cbn [run_loop] in H. cbn [Nat.add run_loop].
    destruct (is_listening a); [| discriminate H].
    unfold bind in *. destruct (run_body env a) as [[|] a1].
    + discriminate H.
    + apply IH. exact H.
Qed.

(** C1: a command containing "exit", "quit" or "goodbye friday" makes
    [handle_voice_command] say goodbye and return "exit" whatever else it
    contains; a session loop that has run [k] passes without ending and
    then hears the wake word followed by such a command has ended after
    pass [k + 1]; and so has [run] when these are the first two
    utterances. *)
Theorem exit_keyword_ends_session (command : string) :
  any_in ["exit"; "quit"; "goodbye friday"] command = true ->
  (forall a, fst (handle_voice_command env command a) = "exit") /\
  (forall k a a',
      run_loop env k a = (false, a') ->
      hears env a' command ->
      forall fuel, (k < fuel)%nat -> fst (run_loop env fuel a) = true) /\
  (forall a, hears env a command ->
             forall fuel, fst (run env (S fuel) a) = true).
Proof.
  intros Hexit.
  assert (Hloop : forall k a a',
             run_loop env k a = (false, a') ->
             hears env a' command ->
             forall fuel, (k < fuel)%nat -> fst (run_loop env fuel a) = true).
  { intros k a a' Hk Hh fuel Hlt.
    replace fuel with (k + S (fuel - S k))%nat by lia.
    rewrite (run_loop_app k a a' Hk). cbn [run_loop].
    destruct (is_listening a'); [| reflexivity].
    unfold bind. pose proof (run_body_exit command a' Hexit Hh) as Hb.
    destruct (run_body env a') as [c a1]. cbn in Hb. subst c. reflexivity. }
  split; [| split].
  - intros a. rewrite exit_branch by exact Hexit. reflexivity.
  - exact Hloop.
  - intros a Hh fuel. unfold run, bind, speak, effect. cbv beta iota.
    set (a2 := set_trace _ (set_trace _ a)).
    assert (Hh2 : hears env a2 command) by exact Hh. clearbody a2.
    destruct (Bool.bool_dec (is_listening a2) true) as [Hl | Hl].
    + apply (Hloop 0%nat a2 a2); [cbn; rewrite Hl; reflexivity | exact Hh2 | lia].
    + apply not_true_is_false in Hl. cbn [run_loop]. rewrite Hl. reflexivity.
Qed.

(** [p in s] follows from [q in s] when [q] starts with [p]. *)
Lemma prefix_trans (p q s : string) :
  prefix p q = true -> prefix q s = true -> prefix p s = true.
Proof.
  revert p q. induction s as [| c s IH]; intros p q Hpq Hqs.
  - destruct q; [| discriminate Hqs]. destruct p; [reflexivity | discriminate Hpq].
  - destruct p as [| a p]; [reflexivity |].
    destruct q as [| b q]; [discriminate Hpq |].
    cbn [prefix] in *.
    destruct (ascii_dec a b) as [-> |]; [| discriminate Hpq].
    destruct (ascii_dec b c) as [_ |]; [| discriminate Hqs].
    exact (IH p q Hpq Hqs).
Qed.

Lemma contains_shorter (p q s : string) :
  prefix p q = true -> contains q s = true -> contains p s = true.
Proof.
  intros Hpq. induction s as [| c s IH]; intros H.
  - cbn [contains] in *. rewrite orb_false_r in *.
    exact (prefix_trans p q _ Hpq H).
  - cbn [contains] in *. apply orb_true_iff in H. destruct H as [H | H].
    + rewrite (prefix_trans p q _ Hpq H). reflexivity.
    + rewrite (IH H). apply orb_true_r.
Qed.

(** The keyword "times" of the calculator branch is out of reach: the
    test for "time" comes first, and a command that contains "times" and
    no keyword of an earlier branch is answered with the time of day. *)
Theorem times_tells_the_time (command : string) (a : VoiceFridayAssistant) :
  contains "times" command = true ->
  any_in ["exit"; "quit"; "goodbye friday"] command = false ->
  any_in ["stop listening"; "sleep friday"] command = false ->
  any_in ["open youtube"; "youtube"] command = false ->
  any_in ["open instagram"; "instagram"] command = false ->
  any_in ["open github"; "github"] command = false ->
  any_in ["open google"; "google search"] command = false ->
  handle_voice_command env command a
  = ("continue",
     set_trace
       (trace a
        ++ [Spoke ("It's " ++ strftime_time (clock env (List.length (trace a))))])
       a).
Proof.
  intros Htimes H1 H2 H3 H4 H5 H6.
  assert (Htime : contains "time" command = true)
    by (apply (contains_shorter "time" "times"); [reflexivity | exact Htimes]).
  unfold handle_voice_command. rewrite H1, H2, H3, H4, H5, H6, Htime.
  reflexivity.
Qed.

(** C9: a command that passes the test of no other branch is handed, word
    for word, to [ask_llama], and the reply is spoken; the context type is
    "task" when the command contains "how to", "steps", "guide" or
    "tutorial", otherwise "creative" when it contains "story", "poem",
    "creative" or "imagine", and "general" when it contains none of the
    eight. *)
Theorem unmatched_command_converses (command : string) :
  router_keyword command = false ->
  exists context_type,
    (forall a, handle_voice_command env command a
               = converse env command context_type a) /\
    (any_in ["how to"; "steps"; "guide"; "tutorial"] command = true ->
     context_type = "task") /\
    (any_in ["how to"; "steps"; "guide"; "tutorial"] command = false ->
     any_in ["story"; "poem"; "creative"; "imagine"] command = true ->
     context_type = "creative") /\
    (any_in ["how to"; "steps"; "guide"; "tutorial"] command = false ->
     any_in ["story"; "poem"; "creative"; "imagine"] command = false ->
     context_type = "general").
Proof.
  unfold router_keyword. intros H.
  apply orb_false_elim in H. destruct H as [Hkey Hplay].
  exists (context_type_of command). split.
  - intros a. rewrite (keyword_before_play_false command Hkey a).
    rewrite Hplay. reflexivity.
  - unfold context_type_of. repeat split; intros H1; try intros H2.
    + rewrite H1. reflexivity.
    + rewrite H1, H2. reflexivity.
    + rewrite H1, H2. reflexivity.
Qed.

Section Invariant.

(** A property of the assistant that reads [is_listening] and
    [conversation_context] only, and that [ask_llama] keeps. *)
Variable I : VoiceFridayAssistant -> Prop.

Hypothesis I_fields :
  forall a b,
    is_listening a = is_listening b ->
    conversation_context a = conversation_context b ->
    I a -> I b.

Hypothesis I_ask_llama :
  forall question context_type, stable I (ask_llama env question context_type).

Lemma stable_ret {A : Type} (x : A) : stable I (ret x).
Proof. intros a H. exact H. Qed.

Lemma stable_bind {A B : Type} (m : M A) (k : A -> M B) :
  stable I m -> (forall x, stable I (k x)) -> stable I (bind m k).
Proof.
  intros Hm Hk a H. unfold bind. specialize (Hm a H).
  destruct (m a) as [x a1]. cbn in Hm. apply Hk. exact Hm.
Qed.

Lemma stable_effect (e : Effect) : stable I (effect e).
Proof. intros a. apply I_fields; reflexivity. Qed.

Lemma stable_when (b : bool) (m : M unit) : stable I m -> stable I (when b m).
Proof. intros H. destruct b; [exact H | apply stable_ret]. Qed.

Lemma stable_now : stable I (now env).
Proof. intros a H. exact H. Qed.

Lemma stable_listen (timeout : Z) : stable I (listen env timeout).
Proof.
  intros a. unfold listen, bind, effect, speak, ret.
  cbn [utterances set_trace].
  destruct (microphone env (utterances a)); apply I_fields; reflexivity.
Qed.

Lemma stable_get_weather (city : string) : stable I (get_weather env city).
Proof.
  intros a. unfold get_weather, get_weather_with, bind, effect, ret.
  destruct (REQUESTS_AVAILABLE env); apply I_fields; reflexivity.
Qed.

Lemma stable_set_reminder_voice (text : string) (minutes : Z) :
  stable I (set_reminder_voice text minutes).
Proof. intros a. apply I_fields; reflexivity. Qed.

Lemma stable_reminder_thread (text : string) (minutes : Z) :
  stable I (reminder_thread env text minutes).
Proof.
  intros a. unfold reminder_thread, bind, speak, effect, ret.
  destruct (time_sleep_raises env (minutes * 60)); [intros H; exact H |].
  cbn [active_reminders set_trace].
  destruct (existsb _ (active_reminders a)); apply I_fields; reflexivity.
Qed.

Lemma stable_handle_voice_command (command : string) :
  stable I (handle_voice_command env command).
Proof.
  unfold handle_voice_command.
  repeat lazymatch goal with
    | |- stable I (if ?c then _ else _) => destruct c
    | |- stable I (match ?x with Some _ => _ | None => _ end) => destruct x
    | |- stable I (match ?x with Returned _ => _ | Raised => _ end) => destruct x
    | |- stable I (bind _ _) => apply stable_bind; [| intros]
    | |- stable I (ret _) => apply stable_ret
    | |- stable I (effect _) => apply stable_effect
    | |- stable I (speak _) => apply stable_effect
    | |- stable I (now _) => apply stable_now
    | |- stable I (when _ _) => apply stable_when
    | |- stable I (listen _ _) => apply stable_listen
    | |- stable I (ask_llama _ _ _) => apply I_ask_llama
    | |- stable I (get_weather _ _) => apply stable_get_weather
    | |- stable I (set_reminder_voice _ _) => apply stable_set_reminder_voice
    end.
  intros a. destruct (llama_client a).
  - apply (stable_bind _ _ (I_ask_llama _ _)). intros. apply stable_effect.
  - apply stable_effect.
Qed.

Lemma stable_run_body : stable I (run_body env).
Proof.
  unfold run_body.
  repeat lazymatch goal with
    | |- stable I (if ?c then _ else _) => destruct c
    | |- stable I (bind _ _) => apply stable_bind; [| intros]
    | |- stable I (ret _) => apply stable_ret
    | |- stable I (speak _) => apply stable_effect
    | |- stable I (listen _ _) => apply stable_listen
    | |- stable I (handle_voice_command _ _) => apply stable_handle_voice_command
    end.
Qed.

Lemma stable_run_loop (fuel : nat) : stable I (run_loop env fuel).
Proof.
  induction fuel as [| fuel IH]; intros a H; cbn [run_loop].
  - exact H.
  - destruct (is_listening a); [| exact H].
    revert a H. apply stable_bind; [apply stable_run_body |].
    intros [|]; [apply stable_ret | exact IH].
Qed.

Lemma stable_run (fuel : nat) : stable I (run env fuel).
Proof.
  unfold run.
  repeat (apply stable_bind; [apply stable_effect | intros]).
  apply stable_run_loop.
Qed.

End Invariant.

(** [ask_llama] leaves [is_listening] alone. *)
Lemma ask_llama_is_listening (question context_type : string)
  (a : VoiceFridayAssistant) :
  is_listening (snd (ask_llama env question context_type a)) = is_listening a.
Proof.
  unfold ask_llama.
  destruct (llama_client a); cbn [negb].
  - destruct (answer env question context_type a); reflexivity.
  - destruct (find _ fallback_responses) as [[? ?] |]; reflexivity.
Qed.

(** No pass of the loop clears [is_listening]: it is assigned in
    [__init__] only. *)
Lemma run_body_keeps_listening (a : VoiceFridayAssistant) :
  is_listening a = true -> is_listening (snd (run_body env a)) = true.
Proof.
  apply (stable_run_body (fun s => is_listening s = true)).
  - intros x y Hl _ H. rewrite <- Hl. exact H.
  - intros question context_type x H.
    rewrite ask_llama_is_listening. exact H.
Qed.

(** When one pass of the loop breaks out of it. *)
Lemma run_body_break (a : VoiceFridayAssistant) :
  fst (run_body env a) = Break <->
  (let (wake_word, a1) := listen env 10 a in
   String.eqb wake_word "timeout" = false /\
   contains "friday" wake_word = true /\
   let (command, a2) :=
     listen env 15 (snd (speak "Yes boss, I'm listening!" a1)) in
   truthy command = true /\
   String.eqb command "timeout" = false /\
   fst (handle_voice_command env command a2) = "exit").
Proof.
  unfold run_body, bind.
  destruct (listen env 10 a) as [wake_word a1].
  destruct (String.eqb wake_word "timeout");
    [split; [discriminate | intros [E _]; discriminate E] |].
  destruct (contains "friday" wake_word);
    [| split; [discriminate | intros (_ & E & _); discriminate E]].
  unfold speak at 1 2, effect. cbn [fst snd].
  destruct (listen env 15 _) as [command a2].
  destruct (truthy command);
    [| split; [discriminate | intros (_ & _ & E & _); discriminate E]].
  destruct (String.eqb command "timeout"); cbn [negb andb];
    [split; [discriminate | intros (_ & _ & _ & E & _); discriminate E] |].
  destruct (handle_voice_command env command a2) as [result a3]. cbn [fst].
  destruct (String.eqb_spec result "exit") as [-> | Hne].
  - cbn. tauto.
  - destruct (String.eqb result "sleep"); cbn;
      (split; [discriminate | intros (_ & _ & _ & _ & E); contradiction]).
Qed.

(** A loop that has ended broke out of one of its passes. *)
Lemma run_loop_ended (fuel : nat) :
  forall a a',
    is_listening a = true ->
    run_loop env fuel a = (true, a') ->
    exists k b,
      (k < fuel)%nat /\ run_loop env k a = (false, b) /\
      fst (run_body env b) = Break.
Proof.
  induction fuel as [| fuel IH]; intros a a' Hl H.
  - cbn in H. rewrite Hl in H. discriminate H.
  - cbn [run_loop] in H. rewrite Hl in H. unfold bind in H.
    destruct (run_body env a) as [c a1] eqn:Hb. destruct c.
    + exists 0%nat, a. cbn. rewrite Hl, Hb. repeat split. lia.
    + assert (Hl1 : is_listening a1 = true).
      { pose proof (run_body_keeps_listening a Hl) as K. rewrite Hb in K.
        exact K. }
      destruct (IH a1 a' Hl1 H) as (k & b & Hk & Hrun & Hbreak).
      exists (S k), b. repeat split; [lia | | exact Hbreak].
      cbn [run_loop]. rewrite Hl. unfold bind. rewrite Hb. exact Hrun.
Qed.


End Router.

Section ConversationContext.

Variable env : Env.

Lemma last_n_length {A : Type} (n : nat) (l : list A) :
  (List.length (last_n n l) <= n)%nat.
Proof. unfold last_n. rewrite length_skipn. lia. Qed.

Lemma last_n_all {A : Type} (n : nat) (l : list A) :
  (List.length l <= n)%nat -> last_n n l = l.
Proof.
  intros H. unfold last_n. replace (List.length l - n)%nat with 0%nat by lia.
  reflexivity.
Qed.

(** Dropping old entries early or late retains the same ones. *)
Lemma last_n_app {A : Type} (n : nat) (l x : list A) :
  last_n n (last_n n l ++ x) = last_n n (l ++ x).
Proof.
  unfold last_n.
  replace (skipn (List.length l - n) l ++ x)
    with (skipn (List.length l - n) (l ++ x)).
  - rewrite skipn_skipn. f_equal.
    rewrite length_skipn, !length_app. lia.
  - rewrite skipn_app. f_equal.
    replace (List.length l - n - List.length l)%nat with 0%nat by lia.
    reflexivity.
Qed.

(** One call: the context becomes the last twenty of the old context
    followed by the turns of the call. *)
Lemma ask_llama_context (question context_type : string)
  (a : VoiceFridayAssistant) :
  (List.length (conversation_context a) <= 20)%nat ->
  conversation_context (snd (ask_llama env question context_type a))
  = last_n 20 (conversation_context a
               ++ turns_of_call env question context_type a).
Proof.
  intros Hlen. unfold ask_llama, turns_of_call.
  destruct (llama_client a); cbn [negb].
  - destruct (answer env question context_type a) as [r |];
      cbn [snd conversation_context set_conversation_context set_trace].
    + destruct (Nat.ltb_spec 20
                  (List.length (conversation_context a
                     ++ [ {| role := user; content := question |};
                          {| role := assistant; content := r |} ]))) as [H | H].
      * reflexivity.
      * symmetry. apply last_n_all. exact H.
    + rewrite app_nil_r. symmetry. apply last_n_all. exact Hlen.
  - destruct (find _ fallback_responses) as [[? ?] |]; cbn;
      rewrite app_nil_r; symmetry; apply last_n_all; exact Hlen.
Qed.

Lemma ask_all_context (calls : list (string * string)) :
  forall a,
    (List.length (conversation_context a) <= 20)%nat ->
    conversation_context (ask_all env calls a)
    = last_n 20 (conversation_context a ++ turns_added env calls a).
Proof.
  induction calls as [| [question context_type] rest IH]; intros a Hlen.
  - cbn. rewrite app_nil_r. symmetry. apply last_n_all. exact Hlen.
  - cbn [ask_all turns_added].
    rewrite IH, ask_llama_context by
      (try rewrite ask_llama_context by exact Hlen; try apply last_n_length;
       exact Hlen).
    rewrite last_n_app, app_assoc. reflexivity.
Qed.

(** C2: the context starts empty; after any sequence of [ask_llama] calls
    from a context of at most twenty entries it holds at most twenty
    entries, and they are the last twenty, in their order, of the old
    context followed by the two turns of every call that was answered; so
    when twenty-five turns have gone in, the first five are gone and the
    last twenty remain.  Nothing else the session does lets the context
    grow past twenty. *)
Theorem conversation_context_bounded :
  (forall client_made, conversation_context (init env client_made) = []) /\
  (forall calls a,
      (List.length (conversation_context a) <= 20)%nat ->
      let a' := ask_all env calls a in
      let turns := conversation_context a ++ turns_added env calls a in
      (List.length (conversation_context a') <= 20)%nat /\
      conversation_context a' = last_n 20 turns /\
      (List.length turns = 25%nat -> conversation_context a' = skipn 5 turns)) /\
  (forall question context_type a ai_response,
      llama_client a = true ->
      answer env question context_type a = Returned ai_response ->
      fst (ask_llama env question context_type a) = ai_response /\
      turns_of_call env question context_type a
      = [ {| role := user; content := question |};
          {| role := assistant; content := ai_response |} ]) /\
  (forall fuel a,
      (List.length (conversation_context a) <= 20)%nat ->
      (List.length (conversation_context (snd (run env fuel a))) <= 20)%nat).
Proof.
  split; [| split; [| split]].
  - intros client_made. unfold init, initialize_llama.
    destruct (OLLAMA_AVAILABLE env); cbn; [| reflexivity].
    destruct client_made; cbn; [| reflexivity].
    destruct (llama_chat env _); reflexivity.
  - intros calls a Hlen a' turns. subst a' turns.
    rewrite ask_all_context by exact Hlen.
    split; [apply last_n_length | split; [reflexivity |]].
    intros H. unfold last_n. rewrite H. reflexivity.
  - intros question context_type a ai_response Hc Ha.
    unfold ask_llama, turns_of_call. rewrite Hc, Ha. split; reflexivity.
  - intros fuel.
    apply (stable_run env
             (fun s => (List.length (conversation_context s) <= 20)%nat)).
    + intros x y _ Hc H. rewrite <- Hc. exact H.
    + intros question context_type x H.
      rewrite ask_llama_context by exact H. apply last_n_length.
Qed.

End ConversationContext.

Section Services.

Variable env : Env.

(** C7: with the HTTP client importable and the API key left at its
    placeholder, [get_weather] answers every city with the request to
    configure the key and leaves the assistant and the trace as they were:
    no request goes out. *)
Theorem weather_without_api_key (city : string) (a : VoiceFridayAssistant) :
  REQUESTS_AVAILABLE env = true ->
  get_weather env city a
  = ("Please configure weather API key for weather updates.", a)
  /\ get_weather_with env "YOUR_WEATHER_API_KEY" city a
    = ("Please configure weather API key for weather updates.", a).
Proof.
  intros H. unfold get_weather, get_weather_with. rewrite H. split; reflexivity.
Qed.

(** With a key of one's own the request does go out. *)
Lemma weather_with_api_key (api_key city : string) (a : VoiceFridayAssistant) :
  REQUESTS_AVAILABLE env = true ->
  String.eqb api_key "YOUR_WEATHER_API_KEY" = false ->
  trace (snd (get_weather_with env api_key city a))
  = trace a
    ++ [Requested ("http://api.openweathermap.org/data/2.5/weather?appid="
                   ++ api_key ++ "&q=" ++ city ++ "&units=metric")].
Proof.
  intros H Hk. unfold get_weather_with. rewrite H, Hk. cbn [negb].
  unfold bind, effect.
  destruct (weather_service env _) as [[| ? ? ?] |]; reflexivity.
Qed.

End Services.

Section Reminders.

Variable env : Env.

Lemma prefix_empty (t : string) : prefix "" t = true.
Proof. destruct t; reflexivity. Qed.

Lemma prefix_app (s t : string) : prefix s (s ++ t) = true.
Proof.
  induction s as [| c s IH]; cbn; [apply prefix_empty |].
  destruct (ascii_dec c c) as [_ | N]; [exact IH | contradiction].
Qed.

Lemma contains_prefix (sub s : string) :
  prefix sub s = true -> contains sub s = true.
Proof. intros H. destruct s; cbn [contains]; rewrite H; reflexivity. Qed.

Lemma contains_app (sub p q : string) : contains sub (p ++ sub ++ q) = true.
Proof.
  induction p as [| c p IH].
  - apply contains_prefix. exact (prefix_app sub q).
  - cbn [append contains]. rewrite IH. apply orb_true_r.
Qed.

Lemma contains_app_end (sub p : string) : contains sub (p ++ sub) = true.
Proof.
  induction p as [| c p IH].
  - apply contains_prefix. cbn [append].
    rewrite <- (prefix_app sub "") at 1. f_equal.
    induction sub as [| c sub IH]; cbn; [reflexivity | f_equal; exact IH].
  - cbn [append contains]. rewrite IH. apply orb_true_r.
Qed.

Lemma contains_skip (sub p x : string) :
  contains sub x = true -> contains sub (p ++ x) = true.
Proof.
  intros H. induction p as [| c p IH]; [exact H |].
  cbn [append contains]. rewrite IH. apply orb_true_r.
Qed.

Lemma same_reminder (x y : string * Z) :
  String.eqb (fst x) (fst y) && Z.eqb (snd x) (snd y) = true <-> x = y.
Proof.
  destruct x as [s m], y as [t n]. cbn [fst snd]. split.
  - intros H. apply andb_true_iff in H. destruct H as [Hs Hm].
    apply String.eqb_eq in Hs. apply Z.eqb_eq in Hm. congruence.
  - intros H. injection H as -> ->. rewrite String.eqb_refl, Z.eqb_refl.
    reflexivity.
Qed.

Lemma active_test (s : string) (m : Z) (l : list (string * Z)) :
  In (s, m) l ->
  existsb (fun r => String.eqb s (fst r) && Z.eqb m (snd r)) l = true.
Proof.
  intros H. apply existsb_exists. exists (s, m). split; [exact H |].
  apply (same_reminder (s, m) (s, m)). reflexivity.
Qed.

Lemma remove_first_occurrences (x : string * Z) (l : list (string * Z)) :
  In x l -> S (occurrences x (remove_first x l)) = occurrences x l.
Proof.
  unfold occurrences. induction l as [| [s m] l IH]; intros H; [destruct H |].
  cbn [remove_first filter fst snd].
  destruct (String.eqb (fst x) s && Z.eqb (snd x) m) eqn:E.
  - reflexivity.
  - cbn [filter fst snd]. rewrite E. apply IH. destruct H as [H | H]; [| exact H].
    subst x. cbn [fst snd] in E.
    rewrite String.eqb_refl, Z.eqb_refl in E. discriminate E.
Qed.

Lemma remove_first_last (x : string * Z) (l : list (string * Z)) :
  ~ In x l -> remove_first x (l ++ [x]) = l.
Proof.
  induction l as [| [s m] l IH]; intros H.
  - destruct x as [t n]. cbn. rewrite String.eqb_refl, Z.eqb_refl. reflexivity.
  - cbn [app remove_first].
    destruct (String.eqb (fst x) s && Z.eqb (snd x) m) eqn:E.
    + exfalso. apply H. left. symmetry.
      apply (proj1 (same_reminder x (s, m))). exact E.
    + f_equal. apply IH. intros Hin. apply H. right. exact Hin.
Qed.

Lemma remove_nth_last {A : Type} (l : list A) (x : A) :
  nth_error (l ++ [x]) (List.length l) = Some x /\
  remove_nth (List.length l) (l ++ [x]) = l.
Proof.
  split.
  - rewrite nth_error_app2 by lia. rewrite Nat.sub_diag. reflexivity.
  - unfold remove_nth. rewrite firstn_app, firstn_all, Nat.sub_diag.
    rewrite skipn_all2 by (rewrite length_app; cbn; lia).
    cbn. rewrite !app_nil_r. reflexivity.
Qed.


End Reminders.

Section Calculator.

Variable env : Env.

Hypothesis arithmetic : PyEval.agrees_on_arithmetic (eval env).

(** [voice_calculator] on a phrase whose normalized text the arithmetic
    fragment decides. *)
Lemma voice_calculator_decided (expression text : string)
  (o : Outcome Value) :
  normalized expression = text ->
  PyEval.arith_eval (calculator_scope text) text = Some o ->
  voice_calculator env expression
  = match PyEval.bind o PyEval.str with
    | Returned result => ("The answer is " ++ result)%string
    | Raised => calculator_failure
    end.
Proof.
  intros Hn Ho. unfold voice_calculator. rewrite Hn.
  rewrite (arithmetic _ _ _ Ho). reflexivity.
Qed.

(** C3: "what is five plus three" is normalized to the text 5 + 3, which
    evaluates to 8, and the answer is "The answer is 8"; "calculate ten
    times ten" is normalized to 10 * 10, which evaluates to 100, and the
    answer is "The answer is 100". *)
Theorem calculator_examples :
  normalized "what is five plus three" = "5 + 3" /\
  eval env (calculator_scope "5 + 3") "5 + 3" = Returned (VInt 8) /\
  voice_calculator env "what is five plus three" = "The answer is 8" /\
  normalized "calculate ten times ten" = "10 * 10" /\
  eval env (calculator_scope "10 * 10") "10 * 10" = Returned (VInt 100) /\
  voice_calculator env "calculate ten times ten" = "The answer is 100".
Proof.
  repeat match goal with |- _ /\ _ => split end.
  - vm_compute. reflexivity.
  - apply arithmetic. vm_compute. reflexivity.
  - rewrite (voice_calculator_decided _ "5 + 3" (Returned (VInt 8)));
      vm_compute; reflexivity.
  - vm_compute. reflexivity.
  - apply arithmetic. vm_compute. reflexivity.
  - rewrite (voice_calculator_decided _ "10 * 10" (Returned (VInt 100)));
      vm_compute; reflexivity.
Qed.

(** C4, on the code: the table is applied in its order, so "four", "six",
    "seven", "eight" and "nine" are replaced inside "fourteen", "sixteen",
    "seventeen", "eighteen" and "nineteen" before those entries are
    reached; "calculate nineteen plus one" becomes 9teen + 1, a syntax
    error, and the answer is the failure message. *)
Theorem nineteen_plus_one :
  map (fun wn => normalized (fst wn)) word_to_num
  = [ "0"; "1"; "2"; "3"; "4"; "5"; "6"; "7"; "8"; "9"; "10"; "11"; "12";
      "13"; "4teen"; "15"; "6teen"; "7teen"; "8een"; "9teen"; "20" ] /\
  normalized "calculate nineteen plus one" = "9teen + 1" /\
  eval env (calculator_scope "9teen + 1") "9teen + 1" = Raised /\
  voice_calculator env "calculate nineteen plus one" = calculator_failure.
Proof.
  repeat match goal with |- _ /\ _ => split end.
  - vm_compute. reflexivity.
  - vm_compute. reflexivity.
  - apply arithmetic. vm_compute. reflexivity.
  - rewrite (voice_calculator_decided _ "9teen + 1" Raised);
      vm_compute; reflexivity.
Qed.

(** The words of the table that are read as their numbers. *)
Lemma number_words_read :
  forall word num,
    In (word, num) word_to_num ->
    ~ In word ["fourteen"; "sixteen"; "seventeen"; "eighteen"; "nineteen"] ->
    normalized word = num /\
    voice_calculator env ("calculate " ++ word ++ " plus one")
    = ("The answer is " ++ str_of_int (int_of_digits num + 1))%string.
Proof.
  intros word num Hin Hnot. cbn [In word_to_num] in Hin.
  repeat (destruct Hin as [Hin | Hin];
          [ injection Hin as <- <-;
            first
              [ exfalso; apply Hnot; cbn [In]; auto 10; fail
              | split;
                [ vm_compute; reflexivity
                | match goal with
                  | |- voice_calculator _ ?e = _ =>
                      let t := eval vm_compute in (normalized e) in
                      let o := eval vm_compute in
                                 (PyEval.arith_eval (calculator_scope t) t) in
                      match o with
                      | Some ?r =>
                          rewrite (voice_calculator_decided e t r);
                          vm_compute; reflexivity
                      end
                  end ] ]
          | ]).
  destruct Hin.
Qed.

(** The names [eval] finds among the locals of [voice_calculator] are
    answered like numbers. *)
Lemma calculator_reads_locals :
  voice_calculator env "num" = "The answer is 20" /\
  voice_calculator env "what is word" = "The answer is twenty" /\
  voice_calculator env "expression" = "The answer is expression".
Proof.
  repeat match goal with |- _ /\ _ => split end.
  - rewrite (voice_calculator_decided _ "num" (Returned (VStr "20")));
      vm_compute; reflexivity.
  - rewrite (voice_calculator_decided _ "word" (Returned (VStr "twenty")));
      vm_compute; reflexivity.
  - rewrite (voice_calculator_decided _ "expression" (Returned (VStr "expression")));
      vm_compute; reflexivity.
Qed.

End Calculator.

(** Where the evaluation completes, [voice_calculator_full] is the
    [voice_calculator] of the router. *)
Lemma voice_calculator_full_caught (env : Env) (expression : string) :
  voice_calculator_full (fun sc src => PyEval.plain (eval env sc src)) expression
  = Completes (Returned (voice_calculator env expression)).
Proof.
  unfold voice_calculator_full, voice_calculator.
  destruct (eval env _ _) as [v |]; cbn; [| reflexivity].
  destruct (PyEval.str v); reflexivity.
Qed.

Section FullCalculator.

Variable eval : PyEval.FullEvaluator.

Hypothesis python : PyEval.agrees_with_python eval.

(** [voice_calculator_full] on a phrase whose normalized text is
    decided. *)
Lemma voice_calculator_full_decided (expression text : string)
  (c : Completion Object) :
  normalized expression = text ->
  PyEval.full_eval (calculator_scope text) text = Some c ->
  voice_calculator_full eval expression
  = voice_calculator_full (fun _ _ => c) expression.
Proof.
  intros Hn Hc. unfold voice_calculator_full. rewrite Hn.
  rewrite (python _ _ _ Hc). reflexivity.
Qed.


End FullCalculator.

Lemma arithmetic_only_agrees : PyEval.agrees_on_arithmetic PyEval.arithmetic_only.
Proof.
  intros sc src o H. unfold PyEval.arithmetic_only. rewrite H. reflexivity.
Qed.

Lemma python_only_agrees : PyEval.agrees_with_python PyEval.python_only.
Proof.
  intros sc src c H. unfold PyEval.python_only. rewrite H. reflexivity.
Qed.


Section Music.

Variable env : Env.

Lemma trace_two (t : list Effect) (x y : Effect) :
  t ++ [x; y] = (t ++ [x]) ++ [y].
Proof. rewrite <- app_assoc. reflexivity. Qed.

Lemma replace_from_absent (old new s : string) :
  contains old s = false -> replace_from old new 0 s = s.
Proof.
  induction s as [| c s IH]; intros H; [reflexivity |].
  cbn [contains] in H. apply orb_false_elim in H. destruct H as [Hp Hc].
  cbn [replace_from]. rewrite Hp. f_equal. apply IH. exact Hc.
Qed.

(** The song the [play] branch looks up for "play " followed by a title
    without "play" in it. *)
Lemma song_of_title (title : string) :
  contains "play" title = false ->
  strip (replace "play" "" ("play " ++ title)) = strip title.
Proof.
  intros H. cbn [append replace replace_from String.length pred].
  change (prefix "play" (String "p" (String "l" (String "a" (String "y"
            (String " " title)))))) with (prefix "" (String " " title)).
  cbn [prefix append].
  change (prefix "play" (String " " title)) with false. cbn iota.
  rewrite (replace_from_absent "play" "" title H).
  reflexivity.
Qed.

(** C6, as amended: for every title of the music table without "play" in
    it, the command "play " followed by the title opens the address the
    table gives for it; and for every title that is not in the table, has
    no "play" in it, no space at either end, and gives the command no
    keyword of an earlier branch, the command opens the YouTube search for
    the title with "+" for each space. *)
Theorem play_opens_song (a : VoiceFridayAssistant) :
  (forall title url,
      In (title, url) MusicLibrary.music ->
      contains "play" title = false ->
      handle_voice_command env ("play " ++ title) a
      = ("continue",
         set_trace (trace a ++ [Opened url; Spoke ("Playing " ++ title)]) a)) /\
  (forall title,
      get title MusicLibrary.music = None ->
      contains "play" title = false ->
      strip title = title ->
      keyword_before_play ("play " ++ title) = false ->
      handle_voice_command env ("play " ++ title) a
      = ("continue",
         set_trace
           (trace a
            ++ [Opened ("https://www.youtube.com/results?search_query="
                        ++ replace " " "+" title);
                Spoke ("Searching for " ++ title ++ " on YouTube")]) a)).
Proof.
  split.
  - intros title url Hin Hplay. cbn [In MusicLibrary.music] in Hin.
    repeat (destruct Hin as [Hin | Hin];
            [ injection Hin as <- <-;
              first [ discriminate Hplay
                    | rewrite trace_two; vm_compute; reflexivity ]
            | ]).
    destruct Hin.
  - intros title Hget Hplay Hstrip Hkey.
    rewrite (keyword_before_play_false env _ Hkey a).
    change (startswith "play" ("play " ++ title)) with (prefix "" (String " " title)).
    cbn [prefix]. cbv zeta.
    rewrite (song_of_title title Hplay), Hstrip, Hget, trace_two.
    reflexivity.
Qed.

(** The two titles with "play" in them: all of its occurrences are
    removed from the command, so what is looked up is "my list" and
    "workout list", and the search is opened instead of the address. *)
Lemma playlist_titles_searched (a : VoiceFridayAssistant) :
  get "my playlist" MusicLibrary.music
  = Some "https://youtu.be/AbkEmIgJMcU?si=V6ETJmVWDU2zOEtq" /\
  handle_voice_command env "play my playlist" a
  = ("continue",
     set_trace
       (trace a
        ++ [Opened "https://www.youtube.com/results?search_query=my+list";
            Spoke "Searching for my list on YouTube"]) a) /\
  handle_voice_command env "play workout playlist" a
  = ("continue",
     set_trace
       (trace a
        ++ [Opened "https://www.youtube.com/results?search_query=workout+list";
            Spoke "Searching for workout list on YouTube"]) a).
Proof.
  repeat match goal with |- _ /\ _ => split end;
    try rewrite trace_two; vm_compute; reflexivity.
Qed.

End Music.

(** C6, against the claim as first stated: "youtube hits" is not a title of
    the table, and "play youtube hits" opens the YouTube home page, since
    the branch for "youtube" comes first. *)
Lemma play_is_not_the_first_branch :
  get "youtube hits" MusicLibrary.music = None /\
  handle_voice_command sample_env "play youtube hits" (init sample_env false)
  = ("continue",
     set_trace
       (trace (init sample_env false)
        ++ [Opened "https://youtube.com"; Spoke "Opening YouTube"])
       (init sample_env false)) /\
  ~ In (Opened "https://www.youtube.com/results?search_query=youtube+hits")
       (trace (snd (handle_voice_command sample_env "play youtube hits"
                      (init sample_env false)))).
Proof.
  repeat match goal with |- _ /\ _ => split end.
  - vm_compute. reflexivity.
  - vm_compute. reflexivity.
  - vm_compute. intros H.
    repeat (destruct H as [H | H]; [discriminate H |]). exact H.
Qed.

Section Exchanges.

Variable env : Env.

Lemma turns_of_app (x y : list (string * string)) :
  turns_of (x ++ y) = turns_of x ++ turns_of y.
Proof. unfold turns_of. apply flat_map_app. Qed.

Lemma turns_of_length (x : list (string * string)) :
  List.length (turns_of x) = (2 * List.length x)%nat.
Proof.
  induction x as [| qa x IH]; [reflexivity |].
  cbn [turns_of flat_map app List.length] in *. fold (turns_of x). lia.
Qed.

Lemma turns_of_skipn (k : nat) :
  forall x, skipn (2 * k) (turns_of x) = turns_of (skipn k x).
Proof.
  induction k as [| k IH]; intros x; [reflexivity |].
  destruct x as [| qa x]; [reflexivity |].
  replace (2 * S k)%nat with (S (S (2 * k))) by lia.
  cbn [turns_of flat_map app skipn]. apply IH.
Qed.

Lemma turns_of_last_n (n : nat) (x : list (string * string)) :
  last_n (2 * n) (turns_of x) = turns_of (last_n n x).
Proof.
  unfold last_n. rewrite turns_of_length, <- turns_of_skipn. f_equal. lia.
Qed.

(** One call on a context of whole exchanges: the exchange of the call is
    appended when the chat answered, and the last ten are kept. *)
Lemma ask_llama_exchanges (question context_type : string)
  (a : VoiceFridayAssistant) (exchanges : list (string * string)) :
  conversation_context a = turns_of exchanges ->
  (List.length exchanges <= 10)%nat ->
  conversation_context (snd (ask_llama env question context_type a))
  = turns_of
      (last_n 10
         (exchanges
          ++ (if llama_client a then
                match answer env question context_type a with
                | Returned ai_response => [(question, ai_response)]
                | Raised => []
                end
              else []))).
Proof.
  intros Hc Hlen.
  rewrite ask_llama_context
    by (rewrite Hc, turns_of_length; lia).
  rewrite Hc. unfold turns_of_call.
  change 20%nat with (2 * 10)%nat.
  rewrite <- turns_of_last_n, turns_of_app. do 2 f_equal.
  destruct (llama_client a); [| reflexivity].
  destruct (answer env question context_type a); reflexivity.
Qed.

Lemma init_context (client_made : bool) :
  conversation_context (init env client_made) = [].
Proof.
  unfold init, initialize_llama.
  destruct (OLLAMA_AVAILABLE env); cbn; [| reflexivity].
  destruct client_made; cbn; [| reflexivity].
  destruct (llama_chat env _); reflexivity.
Qed.

(** The window never splits an exchange: from [__init__] on and through
    every pass of [run], the context is a sequence of at most ten
    question-answer pairs, and a chat request is made of the system
    prompt, the last three of those pairs and the new question. *)
Theorem context_holds_whole_exchanges :
  (forall client_made, whole_exchanges (init env client_made)) /\
  (forall fuel a, whole_exchanges a -> whole_exchanges (snd (run env fuel a))) /\
  (forall question context_type a exchanges,
      conversation_context a = turns_of exchanges ->
      request_messages question context_type a
      = [ {| role := system;
             content := get_default context_type system_prompts
                          (item "general" system_prompts) |} ]
        ++ turns_of (last_n 3 exchanges)
        ++ [ {| role := user; content := question |} ]).
Proof.
  split; [| split].
  - intros client_made. exists []. split; [apply init_context | cbn; lia].
  - intros fuel. apply (stable_run env whole_exchanges).
    + intros x y _ Hc (ex & Hx & Hl). exists ex. rewrite <- Hc. auto.
    + intros question context_type x (ex & Hx & Hl).
      eexists. split; [apply (ask_llama_exchanges _ _ _ ex Hx Hl) |].
      apply last_n_length.
  - intros question context_type a exchanges Hc.
    unfold request_messages. rewrite Hc.
    change 6%nat with (2 * 3)%nat. rewrite turns_of_last_n. reflexivity.
Qed.

End Exchanges.

Section Listening.

Variable env : Env.

Lemma isspace_lower_char (c : ascii) : isspace (lower_char c) = isspace c.
Proof. destruct c as [[] [] [] [] [] [] [] []]; reflexivity. Qed.

Lemma lower_char_idem (c : ascii) : lower_char (lower_char c) = lower_char c.
Proof. destruct c as [[] [] [] [] [] [] [] []]; reflexivity. Qed.

Lemma lower_idem (s : string) : lower (lower s) = lower s.
Proof.
  induction s as [| c s IH]; [reflexivity |].
  cbn [lower]. rewrite lower_char_idem, IH. reflexivity.
Qed.

Lemma lower_lstrip (s : string) : lower (lstrip s) = lstrip (lower s).
Proof.
  induction s as [| c s IH]; [reflexivity |].
  cbn [lower lstrip]. rewrite isspace_lower_char.
  destruct (isspace c); [exact IH | reflexivity].
Qed.

Lemma rstrip_cons (c : ascii) (s : string) :
  rstrip (String c s)
  = match rstrip s with
    | EmptyString => if isspace c then EmptyString else String c EmptyString
    | String d r => String c (String d r)
    end.
Proof. cbn [rstrip]. destruct (rstrip s); reflexivity. Qed.

Lemma lower_rstrip (s : string) : lower (rstrip s) = rstrip (lower s).
Proof.
  induction s as [| c s IH]; [reflexivity |].
  cbn [lower]. rewrite !rstrip_cons, <- IH, isspace_lower_char.
  destruct (rstrip s); cbn [lower]; [destruct (isspace c) |]; reflexivity.
Qed.

Lemma lower_strip (s : string) : lower (strip s) = strip (lower s).
Proof. unfold strip. rewrite lower_rstrip, lower_lstrip. reflexivity. Qed.

Lemma rstrip_idem (s : string) : rstrip (rstrip s) = rstrip s.
Proof.
  induction s as [| c s IH]; [reflexivity |].
  rewrite rstrip_cons. destruct (rstrip s) as [| d r] eqn:E.
  - destruct (isspace c) eqn:Ec; [reflexivity |].
    rewrite rstrip_cons. cbn [rstrip]. rewrite Ec. reflexivity.
  - rewrite rstrip_cons, IH. reflexivity.
Qed.

Lemma lstrip_rstrip_lstrip (s : string) :
  lstrip (rstrip (lstrip s)) = rstrip (lstrip s).
Proof.
  induction s as [| c s IH]; [reflexivity |].
  cbn [lstrip]. destruct (isspace c) eqn:Ec; [exact IH |].
  rewrite rstrip_cons.
  destruct (rstrip s); rewrite ?Ec; cbn [lstrip]; rewrite Ec; reflexivity.
Qed.

Lemma strip_idem (s : string) : strip (strip s) = strip s.
Proof.
  unfold strip. rewrite lstrip_rstrip_lstrip. apply rstrip_idem.
Qed.

(** [listen] consumes one utterance and returns a text that is already
    stripped and in lower case: the recognized phrase normalized, the word
    "timeout" when nothing was said in time, and the empty text on every
    recognition error, after an apology when the phrase was not understood
    or the service not reached.  It listens once, changes nothing but the
    trace, and a user who says "Timeout" is heard as silence. *)
Theorem listen_returns_normalized (timeout : Z) (a : VoiceFridayAssistant) :
  let r := fst (listen env timeout a) in
  let a' := snd (listen env timeout a) in
  let heard := microphone env (utterances a) in
  strip r = r /\
  lower r = r /\
  utterances a' = S (utterances a) /\
  a' = set_utterances (S (utterances a)) (set_trace (trace a') a) /\
  (forall text, heard = Recognized text ->
                r = strip (lower text) /\
                trace a' = trace a ++ [Listened timeout]) /\
  (heard = WaitTimeoutError ->
   r = "timeout" /\ trace a' = trace a ++ [Listened timeout]) /\
  (heard = UnknownValueError ->
   r = "" /\
   trace a' = trace a ++ [Listened timeout;
                          Spoke "I couldn't understand that. Please try again."]) /\
  (heard = RequestError ->
   r = "" /\
   trace a' = trace a ++ [Listened timeout;
                          Spoke "Speech service is unavailable right now."]) /\
  (heard = OtherError ->
   r = "" /\ trace a' = trace a ++ [Listened timeout]) /\
  (r = "timeout" <->
   heard = WaitTimeoutError \/
   exists text, heard = Recognized text /\ strip (lower text) = "timeout").
Proof.
  unfold listen, bind, speak, effect, ret. cbn [utterances set_trace fst snd].
  destruct (microphone env (utterances a)) as [text | | | |] eqn:Hm;
    cbn [fst snd utterances trace set_trace set_utterances];
    rewrite <- ?app_assoc; cbn [app];
    repeat match goal with |- _ /\ _ => split end;
    try (split; intros); intros;
    repeat match goal with
      | H : _ \/ _ |- _ => destruct H
      | H : exists _, _ |- _ => destruct H
      | H : _ /\ _ |- _ => destruct H
      | H : Recognized _ = Recognized _ |- _ => injection H as H; subst
      end;
    first [ congruence
          | apply strip_idem
          | rewrite lower_strip, lower_idem; reflexivity
          | destruct a; reflexivity
          | left; reflexivity
          | right; eexists; split; [reflexivity | eassumption]
          | reflexivity ].
Qed.

End Listening.

Section Footprint.

Variable env : Env.
Variable I : VoiceFridayAssistant -> Prop.
Variable P : Effect -> Prop.

Hypothesis I_trace : forall a t, I a -> I (set_trace t a).
Hypothesis I_utterances : forall a n, I a -> I (set_utterances n a).
Hypothesis I_context : forall a c, I a -> I (set_conversation_context c a).
Hypothesis I_reminder :
  forall a text time_input digits minutes,
    search_digits time_input = Some digits ->
    int_of_text digits = Some minutes ->
    I a -> I (snd (set_reminder_voice text minutes a)).
Hypothesis P_spoke : forall text, P (Spoke text).
Hypothesis P_listened : forall timeout, P (Listened timeout).
Hypothesis P_opened : forall url, P (Opened url).
Hypothesis P_pressed :
  forall key presses, PYAUTOGUI_AVAILABLE env = true -> P (Pressed key presses).
Hypothesis P_chatted :
  forall a messages, I a -> llama_client a = true -> P (Chatted messages).

Lemma confined_ret {A : Type} (x : A) : confined I P (ret x).
Proof.
  intros a H. split; [exact H |]. exists []. split; [| constructor].
  cbn. rewrite app_nil_r. reflexivity.
Qed.

Lemma confined_bind {A B : Type} (m : M A) (k : A -> M B) :
  confined I P m -> (forall x, confined I P (k x)) -> confined I P (bind m k).
Proof.
  intros Hm Hk a H. unfold bind.
  destruct (Hm a H) as (H1 & l1 & E1 & F1).
  destruct (m a) as [x a1]. cbn [snd] in *.
  destruct (Hk x a1 H1) as (H2 & l2 & E2 & F2).
  split; [exact H2 |]. exists (l1 ++ l2). split.
  - rewrite E2, E1, app_assoc. reflexivity.
  - apply Forall_app. split; assumption.
Qed.

Lemma confined_effect (e : Effect) : P e -> confined I P (effect e).
Proof.
  intros He a H. split; [apply I_trace; exact H |].
  exists [e]. split; [reflexivity | constructor; [exact He | constructor]].
Qed.

Lemma confined_when (b : bool) (m : M unit) :
  confined I P m -> confined I P (when b m).
Proof. intros H. destruct b; [exact H | apply confined_ret]. Qed.

Lemma confined_silent {A : Type} (m : M A) :
  (forall a, snd (m a) = a) -> confined I P m.
Proof.
  intros Hm a H. rewrite Hm. split; [exact H |]. exists [].
  split; [| constructor]. rewrite app_nil_r. reflexivity.
Qed.

Lemma confined_now : confined I P (now env).
Proof. apply confined_silent. reflexivity. Qed.

Lemma confined_listen (timeout : Z) : confined I P (listen env timeout).
Proof.
  unfold listen. apply confined_bind; [apply confined_effect, P_listened |].
  intros _ a H.
  assert (H' : I (set_utterances (S (utterances a)) a)) by (apply I_utterances; exact H).
  cbv beta zeta.
  destruct (microphone env (utterances a)).
  - split; [exact H' |]. exists []. split; [| constructor].
    cbn. rewrite app_nil_r. reflexivity.
  - split; [exact H' |]. exists []. split; [| constructor].
    cbn. rewrite app_nil_r. reflexivity.
  - split; [apply I_trace; exact H' |]. eexists. split; [reflexivity |].
    constructor; [apply P_spoke | constructor].
  - split; [apply I_trace; exact H' |]. eexists. split; [reflexivity |].
    constructor; [apply P_spoke | constructor].
  - split; [exact H' |]. exists []. split; [| constructor].
    cbn. rewrite app_nil_r. reflexivity.
Qed.

Lemma confined_ask_llama (question context_type : string) :
  confined I P (ask_llama env question context_type).
Proof.
  intros a H. unfold ask_llama.
  destruct (llama_client a) eqn:Hc; cbn [negb].
  - destruct (answer env question context_type a); cbn [snd];
      (split;
       [ repeat first [apply I_context | apply I_trace]; exact H
       | eexists; split;
         [ reflexivity
         | constructor; [exact (P_chatted a _ H Hc) | constructor] ] ]).
  - destruct (find _ fallback_responses) as [[? ?] |]; cbn [snd];
      exact (confined_ret tt a H).
Qed.

Lemma confined_get_weather (city : string) : confined I P (get_weather env city).
Proof.
  intros a H. unfold get_weather, get_weather_with.
  destruct (REQUESTS_AVAILABLE env); exact (confined_ret tt a H).
Qed.

Lemma confined_set_reminder_voice (text time_input digits : string)
  (minutes : Z) :
  search_digits time_input = Some digits ->
  int_of_text digits = Some minutes ->
  confined I P (set_reminder_voice text minutes).
Proof.
  intros Hd Hm a H.
  split; [exact (I_reminder a text time_input digits minutes Hd Hm H) |].
  exists []. split; [| constructor]. cbn. rewrite app_nil_r. reflexivity.
Qed.

Lemma confined_handle_voice_command (command : string) :
  confined I P (handle_voice_command env command).
Proof.
  unfold handle_voice_command.
  repeat lazymatch goal with
    | |- confined I P (if ?c then _ else _) => destruct c eqn:?
    | |- confined I P (match ?x with Some _ => _ | None => _ end) =>
        destruct x eqn:?
    | |- confined I P (match ?x with Returned _ => _ | Raised => _ end) =>
        destruct x
    | |- confined I P (bind _ _) => apply confined_bind; [| intros]
    | |- confined I P (ret _) => apply confined_ret
    | |- confined I P (effect (Opened _)) => apply confined_effect, P_opened
    | |- confined I P (effect (Pressed _ _)) =>
        apply confined_effect, P_pressed;
          first [assumption | reflexivity]
    | |- confined I P (speak _) => apply confined_effect, P_spoke
    | |- confined I P (now _) => apply confined_now
    | |- confined I P (when _ _) => apply confined_when
    | |- confined I P (listen _ _) => apply confined_listen
    | |- confined I P (ask_llama _ _ _) => apply confined_ask_llama
    | |- confined I P (get_weather _ _) => apply confined_get_weather
    | |- confined I P (set_reminder_voice _ _) =>
        eapply confined_set_reminder_voice; eassumption
    end.
  intros a. destruct (llama_client a).
  - apply confined_bind; [apply confined_ask_llama |].
    intros. apply confined_effect, P_spoke.
  - apply confined_effect, P_spoke.
Qed.

Lemma confined_run_body : confined I P (run_body env).
Proof.
  unfold run_body.
  repeat lazymatch goal with
    | |- confined I P (if ?c then _ else _) => destruct c
    | |- confined I P (bind _ _) => apply confined_bind; [| intros]
    | |- confined I P (ret _) => apply confined_ret
    | |- confined I P (speak _) => apply confined_effect, P_spoke
    | |- confined I P (listen _ _) => apply confined_listen
    | |- confined I P (handle_voice_command _ _) =>
        apply confined_handle_voice_command
    end.
Qed.

Lemma confined_run_loop (fuel : nat) : confined I P (run_loop env fuel).
Proof.
  induction fuel as [| fuel IH]; intros a H; cbn [run_loop].
  - exact (confined_ret tt a H).
  - destruct (is_listening a); [| exact (confined_ret tt a H)].
    revert a H. apply confined_bind; [apply confined_run_body |].
    intros [|]; [apply confined_ret | exact IH].
Qed.

Lemma confined_run (fuel : nat) : confined I P (run env fuel).
Proof.
  unfold run.
  repeat (apply confined_bind; [apply confined_effect, P_spoke | intros]).
  apply confined_run_loop.
Qed.

End Footprint.

Section Effects.

Variable env : Env.

(** Routing a command, and a whole session, has only the effects that are
    [allowed]: no weather request goes out, keys are pressed only where
    the key-press library is installed, the chat model is called only with
    a connected client, and nothing sleeps (the main thread sleeps only in
    the handlers of [run], which are not modelled); and the client is
    never connected or disconnected on the way. *)
Theorem session_effects (a : VoiceFridayAssistant) :
  (forall command,
      let a' := snd (handle_voice_command env command a) in
      llama_client a' = llama_client a /\
      exists added,
        trace a' = trace a ++ added /\
        Forall (allowed env (llama_client a)) added) /\
  (forall fuel,
      let a' := snd (run env fuel a) in
      llama_client a' = llama_client a /\
      exists added,
        trace a' = trace a ++ added /\
        Forall (allowed env (llama_client a)) added).
Proof.
  assert (F : forall (A : Type) (m : M A),
             confined (fun b => llama_client b = llama_client a)
                      (allowed env (llama_client a)) m ->
             llama_client (snd (m a)) = llama_client a /\
             exists added,
               trace (snd (m a)) = trace a ++ added /\
               Forall (allowed env (llama_client a)) added).
  { intros A m H. exact (H a eq_refl). }
  split; intros x; apply F;
    [ apply confined_handle_voice_command | apply confined_run ];
    try (intros; cbn; congruence);
    try (intros; exact Logic.I).
Qed.

End Effects.

Section Pending.

Variable env : Env.

Lemma digit_value_not_negative (c : ascii) :
  isdigit c = true -> (0 <= digit_value c)%Z.
Proof.
  unfold isdigit, digit_value. intros H. apply andb_true_iff in H.
  destruct H as [H _]. apply Nat.leb_le in H. lia.
Qed.

Lemma span_digits_all (s : string) :
  forall c, In c (list_ascii_of_string (fst (span_digits s))) -> isdigit c = true.
Proof.
  induction s as [| c s IH]; cbn [span_digits]; [intros ? [] |].
  destruct (isdigit c) eqn:E; [| intros ? []].
  destruct (span_digits s) as [d r]. cbn [fst list_ascii_of_string] in *.
  intros c' [<- | H]; [exact E | exact (IH c' H)].
Qed.

Lemma search_digits_all (s digits : string) :
  search_digits s = Some digits ->
  forall c, In c (list_ascii_of_string digits) -> isdigit c = true.
Proof.
  induction s as [| c s IH]; [discriminate |].
  cbn [search_digits]. destruct (isdigit c); [| exact IH].
  intros H. injection H as <-. exact (span_digits_all (String c s)).
Qed.

Lemma int_digits_not_negative (d : string) :
  forall acc,
    (0 <= acc)%Z ->
    (forall c, In c (list_ascii_of_string d) -> isdigit c = true) ->
    (0 <= int_digits acc d)%Z.
Proof.
  induction d as [| c d IH]; intros acc Hacc Hd; cbn [int_digits]; [exact Hacc |].
  apply IH.
  - pose proof (digit_value_not_negative c (Hd c (or_introl eq_refl))). lia.
  - intros c' H. apply Hd. right. exact H.
Qed.

Lemma search_digits_not_negative (s digits : string) :
  search_digits s = Some digits -> (0 <= int_of_digits digits)%Z.
Proof.
  intros H. apply int_digits_not_negative; [lia |].
  exact (search_digits_all s digits H).
Qed.

Lemma remove_first_perm (x : string * Z) (l : list (string * Z)) :
  In x l -> Permutation l (x :: remove_first x l).
Proof.
  induction l as [| [s m] l IH]; [intros [] |]. intros H.
  cbn [remove_first].
  destruct (String.eqb (fst x) s && Z.eqb (snd x) m) eqn:E.
  - apply (same_reminder x (s, m)) in E. subst x. apply Permutation_refl.
  - destruct H as [H | H].
    + subst x. cbn [fst snd] in E.
      rewrite String.eqb_refl, Z.eqb_refl in E. discriminate.
    + eapply perm_trans; [apply perm_skip, IH, H | apply perm_swap].
Qed.

Lemma remove_nth_perm {A : Type} (i : nat) :
  forall (l : list A) (x : A),
    nth_error l i = Some x -> Permutation l (x :: remove_nth i l).
Proof.
  induction i as [| i IH]; intros [| y l] x H; try discriminate.
  - injection H as ->. apply Permutation_refl.
  - cbn [nth_error] in H. unfold remove_nth. cbn [firstn skipn app].
    eapply perm_trans; [apply perm_skip, (IH l x H) | apply perm_swap].
Qed.

Lemma int_of_text_digits (digits : string) (minutes : Z) :
  int_of_text digits = Some minutes -> minutes = int_of_digits digits.
Proof.
  unfold int_of_text. destruct (_ <? _)%nat; [discriminate |].
  intros H. injection H as <-. reflexivity.
Qed.

Lemma remove_first_absent (x : string * Z) (l : list (string * Z)) :
  existsb (fun r => String.eqb (fst x) (fst r) && Z.eqb (snd x) (snd r)) l = false ->
  remove_first x l = l.
Proof.
  induction l as [| [s m] l IH]; [reflexivity |]. cbn [existsb remove_first fst snd].
  intros H. apply orb_false_elim in H. destruct H as [H1 H2].
  rewrite H1, (IH H2). reflexivity.
Qed.

Lemma remove_first_other (x y : string * Z) (l : list (string * Z)) :
  x <> y -> In x l -> In x (remove_first y l).
Proof.
  intros Hxy. induction l as [| [s m] l IH]; [intros [] |].
  cbn [remove_first].
  destruct (String.eqb (fst y) s && Z.eqb (snd y) m) eqn:E.
  - apply (same_reminder y (s, m)) in E. subst y.
    intros [H | H]; [congruence | exact H].
  - intros [H | H]; [left; exact H | right; exact (IH H)].
Qed.

Lemma reminder_thread_effect (text : string) (minutes : Z) (b : VoiceFridayAssistant) :
  snd (reminder_thread env text minutes b)
  = if time_sleep_raises env (minutes * 60) then b
    else set_active_reminders (remove_first (text, minutes) (active_reminders b))
           (set_trace (trace b ++ [Slept (minutes * 60);
                                   Spoke ("Reminder alert! " ++ text)]) b).
Proof.
  unfold reminder_thread. destruct (time_sleep_raises env _); [reflexivity |].
  unfold bind, speak, effect. cbn [trace set_trace active_reminders snd].
  rewrite <- app_assoc. cbn [app].
  destruct (existsb _ (active_reminders b)) eqn:E; cbn [snd].
  - reflexivity.
  - rewrite (remove_first_absent (text, minutes) _ E). destruct b. reflexivity.
Qed.

Lemma run_thread_effect (i : nat) (text : string) (minutes : Z)
  (a : VoiceFridayAssistant) :
  nth_error (threads a) i = Some (text, minutes) ->
  snd (run_thread env i a)
  = if time_sleep_raises env (minutes * 60)
    then set_threads (remove_nth i (threads a)) a
    else set_active_reminders (remove_first (text, minutes) (active_reminders a))
           (set_trace (trace a ++ [Slept (minutes * 60);
                                   Spoke ("Reminder alert! " ++ text)])
              (set_threads (remove_nth i (threads a)) a)).
Proof.
  intros H. unfold run_thread. rewrite H. rewrite reminder_thread_effect.
  reflexivity.
Qed.

Lemma init_reminders (client_made : bool) :
  active_reminders (init env client_made) = [] /\
  threads (init env client_made) = [].
Proof.
  unfold init, initialize_llama. cbn [llama_client].
  destruct (OLLAMA_AVAILABLE env), client_made; cbn; try (split; reflexivity).
  destruct (llama_chat env _); cbn; split; reflexivity.
Qed.

Lemma reminders_pending_run (fuel : nat) (a : VoiceFridayAssistant) :
  reminders_pending env a -> reminders_pending env (snd (run env fuel a)).
Proof.
  intros H.
  apply (confined_run env (reminders_pending env) (fun _ => True));
    try (intros; exact Logic.I); try exact H; try (intros ? ? Hb; exact Hb).
  intros b text time_input digits minutes Hd Hm [(stale & Hp & Hs) Hn].
  apply int_of_text_digits in Hm. subst minutes. split; cbn.
  - exists stale. split; [| exact Hs].
    rewrite <- app_assoc.
    eapply perm_trans; [apply Permutation_app_tail, Hp |].
    rewrite <- app_assoc. apply Permutation_app_head, Permutation_app_comm.
  - apply Forall_app. split; [exact Hn |]. constructor; [| constructor].
    exact (search_digits_not_negative _ _ Hd).
Qed.

Lemma reminders_pending_thread (i : nat) (text : string) (minutes : Z)
  (a : VoiceFridayAssistant) :
  reminders_pending env a ->
  nth_error (threads a) i = Some (text, minutes) ->
  In (text, minutes) (active_reminders a) /\
  reminders_pending env (snd (run_thread env i a)).
Proof.
  intros [(stale & Hp & Hs) Hn] Hi.
  pose proof (remove_nth_perm _ _ _ Hi) as P2.
  assert (Hact : In (text, minutes) (active_reminders a)).
  { apply (Permutation_in _ (Permutation_sym Hp)). apply in_or_app. left.
    exact (nth_error_In _ _ Hi). }
  split; [exact Hact |].
  assert (Hn' : Forall (fun r => (0 <= snd r)%Z) (remove_nth i (threads a))).
  { apply (Permutation_Forall P2) in Hn. inversion Hn; assumption. }
  rewrite (run_thread_effect i text minutes a Hi).
  destruct (time_sleep_raises env (minutes * 60)) eqn:E; split;
    cbn [threads active_reminders set_threads set_trace set_active_reminders];
    try exact Hn'.
  - exists ((text, minutes) :: stale). split.
    + eapply perm_trans; [exact Hp |].
      eapply perm_trans; [apply Permutation_app_tail, P2 |].
      cbn [app]. apply Permutation_middle.
    + constructor; [| exact Hs]. unfold sleepable. cbn [snd]. rewrite E.
      reflexivity.
  - exists stale. split; [| exact Hs].
    apply (Permutation_cons_inv (a := (text, minutes))).
    eapply perm_trans; [apply Permutation_sym, remove_first_perm, Hact |].
    eapply perm_trans; [exact Hp |].
    exact (Permutation_app_tail stale P2).
Qed.

(** Reminders set by voice with a delay that [time.sleep] takes are all
    alerted.  At the start there is no reminder; through a whole session
    the active reminders are those whose thread is pending, together with
    reminders whose delay [time.sleep] refuses, and every delay read from
    speech is zero or more (a spoken sign is not read).  A pending thread
    that runs sleeps its delay, speaks its alert and takes one entry from
    the active list, its own, when [time.sleep] takes the delay; when it
    does not, the thread ends at once, nothing is spoken and the reminder
    stays active. *)
Theorem reminders_accounted :
  (forall client_made, reminders_pending env (init env client_made)) /\
  (forall fuel a,
      reminders_pending env a ->
      reminders_pending env (snd (run env fuel a))) /\
  (forall i text minutes a,
      reminders_pending env a ->
      nth_error (threads a) i = Some (text, minutes) ->
      let a' := snd (run_thread env i a) in
      reminders_pending env a' /\
      threads a' = remove_nth i (threads a) /\
      (sleepable env minutes = true ->
       trace a' = trace a ++ [Slept (minutes * 60);
                              Spoke ("Reminder alert! " ++ text)] /\
       active_reminders a' = remove_first (text, minutes) (active_reminders a) /\
       S (List.length (active_reminders a')) = List.length (active_reminders a)) /\
      (sleepable env minutes = false ->
       trace a' = trace a /\ active_reminders a' = active_reminders a)).
Proof.
  split; [| split].
  - intros client_made. destruct (init_reminders client_made) as [Ha Ht].
    unfold reminders_pending. rewrite Ha, Ht. split; [| constructor].
    exists []. split; constructor.
  - exact reminders_pending_run.
  - intros i text minutes a H Hi a'. subst a'.
    destruct (reminders_pending_thread i text minutes a H Hi) as [Hact H'].
    split; [exact H' |]. clear H'.
    rewrite (run_thread_effect i text minutes a Hi). unfold sleepable.
    destruct (time_sleep_raises env (minutes * 60));
      cbn [negb trace threads active_reminders set_trace set_threads
           set_active_reminders];
      (split; [reflexivity |]); (split; [| intros; try discriminate]);
      intros; try discriminate.
    + split; reflexivity.
    + split; [reflexivity |]. split; [reflexivity |].
      pose proof (Permutation_length (remove_first_perm _ _ Hact)) as P1.
      cbn [List.length] in P1. symmetry. exact P1.
Qed.

(** A reminder with a delay that [time.sleep] refuses is never taken off
    the active list.  Its thread ends at [time.sleep]: when it is the next
    to run after [set_reminder_voice], all that is left of the call is the
    reminder in the active list.  From then on the reminder stays active
    through every pass of [run] and every reminder thread that runs. *)
Theorem unsleepable_reminder_stays (text : string) (minutes : Z) :
  sleepable env minutes = false ->
  (forall a,
      snd (run_thread env (List.length (threads a))
             (snd (set_reminder_voice text minutes a)))
      = set_active_reminders (active_reminders a ++ [(text, minutes)]) a) /\
  (forall fuel a,
      In (text, minutes) (active_reminders a) ->
      In (text, minutes) (active_reminders (snd (run env fuel a)))) /\
  (forall i a,
      In (text, minutes) (active_reminders a) ->
      In (text, minutes) (active_reminders (snd (run_thread env i a)))).
Proof.
  intros Hs. unfold sleepable in Hs. apply negb_false_iff in Hs.
  split; [| split].
  - intros a. rewrite (run_thread_effect _ text minutes).
    + rewrite Hs. cbn [set_reminder_voice snd threads set_threads set_active_reminders].
      rewrite (proj2 (remove_nth_last _ _)). destruct a. reflexivity.
    + cbn [set_reminder_voice snd threads set_threads set_active_reminders].
      exact (proj1 (remove_nth_last _ _)).
  - intros fuel a H.
    apply (confined_run env (fun b => In (text, minutes) (active_reminders b))
             (fun _ => True));
      try (intros; exact Logic.I); try exact H; try (intros ? ? Hb; exact Hb).
    intros b t ti d m _ _ Hb. cbn. apply in_or_app. left. exact Hb.
  - intros i a H. unfold run_thread.
    destruct (nth_error (threads a) i) as [[t m] |] eqn:Hi; [| exact H].
    rewrite reminder_thread_effect.
    destruct (time_sleep_raises env (m * 60)) eqn:E; [exact H |].
    cbn [active_reminders set_active_reminders].
    apply remove_first_other; [| exact H].
    intros Heq. injection Heq as <- <-. rewrite Hs in E. discriminate.
Qed.

End Pending.

Section Replies.

Variable env : Env.

Lemma confined_client_choice {A : Type} (I : VoiceFridayAssistant -> Prop)
  (P : Effect -> Prop) (m n : M A) :
  confined I P m -> confined I P n ->
  confined I P (fun a => if llama_client a then m a else n a).
Proof. intros Hm Hn a H. destruct (llama_client a); [apply Hm | apply Hn]; exact H. Qed.

Ltac grow :=
  unfold grows;
  repeat lazymatch goal with
    | |- confined _ _ (if ?c then _ else _) => destruct c
    | |- confined _ _ (match ?x with Some _ => _ | None => _ end) =>
        destruct x eqn:?
    | |- confined _ _ (match ?x with Returned _ => _ | Raised => _ end) =>
        destruct x
    | |- confined _ _ (fun a => if llama_client a then _ else _) =>
        apply confined_client_choice
    | |- confined _ _ (bind _ _) => apply confined_bind; [| intros]
    | |- confined _ _ (ret _) => apply confined_ret
    | |- confined _ _ (effect _) => apply confined_effect; intros; exact Logic.I
    | |- confined _ _ (speak _) => apply confined_effect; intros; exact Logic.I
    | |- confined _ _ (now _) => apply confined_now
    | |- confined _ _ (when _ _) => apply confined_when
    | |- confined _ _ (listen _ _) => apply confined_listen; intros; exact Logic.I
    | |- confined _ _ (ask_llama _ _ _) =>
        apply confined_ask_llama; intros; exact Logic.I
    | |- confined _ _ (get_weather _ _) => apply confined_get_weather
    | |- confined _ _ (set_reminder_voice _ _) =>
        eapply confined_set_reminder_voice;
          first [eassumption | intros; exact Logic.I]
    end.

Lemma spoken_app (l1 l2 : list Effect) : spoken (l1 ++ l2) = spoken l1 ++ spoken l2.
Proof.
  induction l1 as [| e l1 IH]; [reflexivity |].
  destruct e; cbn [app spoken]; rewrite ?IH; reflexivity.
Qed.

Lemma replies_speak (text : string) : replies (speak text).
Proof. intros a. exists [Spoke text]. split; [reflexivity | discriminate]. Qed.

Lemma replies_first {A B : Type} (m : M A) (k : A -> M B) :
  replies m -> (forall x, grows (k x)) -> replies (bind m k).
Proof.
  intros Hm Hk a. unfold bind.
  destruct (Hm a) as (l1 & E1 & S1). destruct (m a) as [x a1]. cbn [snd] in *.
  destruct (Hk x a1 Logic.I) as (_ & l2 & E2 & _).
  exists (l1 ++ l2). split; [rewrite E2, E1, app_assoc; reflexivity |].
  rewrite spoken_app. destruct (spoken l1); [contradiction | discriminate].
Qed.

Lemma replies_later {A B : Type} (m : M A) (k : A -> M B) :
  grows m -> (forall x, replies (k x)) -> replies (bind m k).
Proof.
  intros Hm Hk a. unfold bind.
  destruct (Hm a Logic.I) as (_ & l1 & E1 & _). destruct (m a) as [x a1]. cbn [snd] in *.
  destruct (Hk x a1) as (l2 & E2 & S2).
  exists (l1 ++ l2). split; [rewrite E2, E1, app_assoc; reflexivity |].
  rewrite spoken_app. intros E. apply app_eq_nil in E. destruct E as [_ E].
  contradiction.
Qed.

Lemma replies_lookup (topic : string) :
  truthy topic && negb (String.eqb topic "timeout") = true ->
  replies
    (when (truthy topic && negb (String.eqb topic "timeout"))
       (if WIKIPEDIA_AVAILABLE env then
          match wikipedia_summary env topic with
          | Returned info => speak info
          | Raised =>
              fun a =>
                if llama_client a then
                  (response <- ask_llama env ("Tell me about " ++ topic) "general" ;;
                   speak response) a
                else
                  speak ("I don't have detailed information about " ++ topic
                         ++ " right now.") a
          end
        else
          response <- ask_llama env ("Tell me about " ++ topic) "general" ;;
          speak response) ;;
     ret "continue").
Proof.
  intros H. rewrite H. cbn [when].
  apply replies_first; [| intros; grow].
  destruct (WIKIPEDIA_AVAILABLE env).
  - destruct (wikipedia_summary env topic); [apply replies_speak |].
    intros a. destruct (llama_client a).
    + revert a. apply replies_later; [grow | intros; apply replies_speak].
    + apply replies_speak.
  - apply replies_later; [grow | intros; apply replies_speak].
Qed.

Lemma keyword_before_play_lookup (command : string) :
  keyword_before_play command
  = keyword_before_lookup command
    || any_in ["tell me about"; "information about"] command.
Proof. reflexivity. Qed.

Lemma replies_ret_bind {A B : Type} (x : A) (k : A -> M B) :
  replies (k x) -> replies (bind (ret x) k).
Proof. intros H a. exact (H a). Qed.

Ltac reply :=
  repeat lazymatch goal with
    | |- replies (if any_in ["tell me about"; "information about"] _ then _ else _) =>
        fail
    | |- replies (if ?c then _ else _) => destruct c eqn:?
    | |- replies (match ?x with Some _ => _ | None => _ end) => destruct x
    | |- replies (bind (speak _) _) =>
        apply replies_first; [apply replies_speak | intros; grow]
    | |- replies (bind (if PYAUTOGUI_AVAILABLE _ then _ else _) _) =>
        apply replies_first; [| intros; grow]
    | |- replies (bind _ _) => apply replies_later; [grow | intros]
    | |- replies (speak _) => apply replies_speak
    end.

Lemma replies_handle_voice_command (command : string) :
  silent_lookup command = false -> replies (handle_voice_command env command).
Proof.
  intros Hs. unfold handle_voice_command. reply.
  destruct (any_in ["tell me about"; "information about"] command) eqn:Hl;
    [| reply].
  fold (topic_of command).
  assert (Ht : String.eqb (topic_of command) "timeout" = false).
  { revert Hs. unfold silent_lookup, keyword_before_lookup.
    repeat match goal with H : _ = false |- _ => rewrite H; clear H end.
    rewrite Hl. intros Hs. exact Hs. }
  destruct (truthy (topic_of command)) eqn:Hn.
  - apply replies_ret_bind, replies_lookup. rewrite Hn, Ht. reflexivity.
  - apply replies_first; [| intros; grow].
    apply replies_first; [apply replies_speak | intros; grow].
Qed.

Lemma silent_handle_voice_command (command : string) (a : VoiceFridayAssistant) :
  silent_lookup command = true ->
  handle_voice_command env command a = ("continue", a).
Proof.
  unfold silent_lookup. intros H.
  apply andb_true_iff in H. destruct H as [H Ht].
  apply andb_true_iff in H. destruct H as [Hk Hl].
  apply negb_true_iff in Hk. unfold keyword_before_lookup in Hk.
  do 13 (apply orb_false_elim in Hk; destruct Hk as [Hk ?]).
  unfold handle_voice_command.
  repeat match goal with H : _ = false |- _ => rewrite H; clear H end.
  rewrite Hl. fold (topic_of command).
  apply String.eqb_eq in Ht. rewrite Ht. reflexivity.
Qed.


End Replies.

Section WakeWord.

Variable env : Env.

Lemma run_body_waiting (a : VoiceFridayAssistant) :
  no_wake_word (microphone env (utterances a)) ->
  exists added,
    run_body env a
    = (Continue,
       set_utterances (S (utterances a)) (set_trace (trace a ++ added) a)) /\
    Forall waiting_effect added.
Proof.
  intros H. unfold run_body, listen, bind, speak, effect, ret.
  cbn [utterances trace set_trace set_utterances].
  destruct (microphone env (utterances a)) as [text | | | |] eqn:E.
  - exists [Listened 10]. split; [| repeat constructor].
    rewrite (H text eq_refl).
    destruct (String.eqb (strip (lower text)) "timeout"); reflexivity.
  - exists [Listened 10]. split; [| repeat constructor]. reflexivity.
  - exists [Listened 10; Spoke "I couldn't understand that. Please try again."].
    split; [| repeat constructor; left; reflexivity].
    cbn. rewrite <- app_assoc. destruct a. reflexivity.
  - exists [Listened 10; Spoke "Speech service is unavailable right now."].
    split; [| repeat constructor; right; reflexivity].
    cbn. rewrite <- app_assoc. destruct a. reflexivity.
  - exists [Listened 10]. split; [| repeat constructor]. reflexivity.
Qed.

(** Nothing is routed without the wake word: as long as no utterance is a
    phrase with "friday" in it, the loop goes on, every pass consumes one
    utterance and only listens (and apologizes when the recognizer
    fails), and the rest of the assistant stays as it was, whatever was
    said, an exit keyword included. *)
Theorem no_wake_word_no_action (fuel : nat) (a : VoiceFridayAssistant) :
  is_listening a = true ->
  (forall i, (i < fuel)%nat -> no_wake_word (microphone env (utterances a + i))) ->
  exists added,
    run_loop env fuel a
    = (false,
       set_utterances (utterances a + fuel) (set_trace (trace a ++ added) a)) /\
    Forall waiting_effect added.
Proof.
  revert a. induction fuel as [| fuel IH]; intros a Hl Hm.
  - exists []. split; [| constructor]. cbn [run_loop]. rewrite Hl.
    rewrite Nat.add_0_r, app_nil_r. destruct a. reflexivity.
  - destruct (run_body_waiting a) as (l1 & E1 & F1).
    { specialize (Hm 0%nat (Nat.lt_0_succ _)). rewrite Nat.add_0_r in Hm. exact Hm. }
    set (a1 := set_utterances (S (utterances a)) (set_trace (trace a ++ l1) a)) in *.
    destruct (IH a1) as (l2 & E2 & F2).
    + exact Hl.
    + intros i Hi. cbn [a1 utterances set_utterances].
      replace (S (utterances a) + i)%nat with (utterances a + S i)%nat by lia.
      apply Hm. lia.
    + exists (l1 ++ l2). split; [| apply Forall_app; split; assumption].
      cbn [run_loop]. rewrite Hl. unfold bind. rewrite E1, E2.
      subst a1. cbn. rewrite app_assoc.
      replace (S (utterances a + fuel)) with (utterances a + S fuel)%nat by lia.
      reflexivity.
Qed.

End WakeWord.

Section Connection.

Variable env : Env.

Lemma init_client (client_made : bool) :
  llama_client (init env client_made) = true <-> chat_ready env client_made.
Proof.
  unfold chat_ready, init, initialize_llama, test_messages. cbn [llama_client].
  destruct (OLLAMA_AVAILABLE env), client_made; cbn;
    try (split; [discriminate | intros (? & ? & ?); discriminate]).
  destruct (llama_chat env _) as [r |]; cbn.
  - split; [intros _; repeat split; exists r; reflexivity | reflexivity].
  - split; [discriminate | intros (_ & _ & r & H); discriminate].
Qed.

Lemma init_printed (client_made : bool) :
  spoken (trace (init env client_made)) = [] /\
  printed (trace (init env client_made))
  = [ if OLLAMA_AVAILABLE env then
        if llama_client (init env client_made)
        then "Llama2 AI model connected successfully!"
        else "Warning: Llama2 model not available. I'll work with basic functions."
      else "AI features limited. Ollama not installed." ].
Proof.
  unfold init, initialize_llama. cbn [llama_client].
  destruct (OLLAMA_AVAILABLE env), client_made; cbn; try (split; reflexivity).
  destruct (llama_chat env _); split; reflexivity.
Qed.

Lemma chats_none (connected : bool) (l : list Effect) :
  connected = false -> Forall (allowed env connected) l -> chats l = [].
Proof.
  intros -> H. induction H as [| e l He _ IH]; [reflexivity |].
  destruct e; cbn [chats]; try exact IH. cbn in He. discriminate.
Qed.

Lemma chats_app (l1 l2 : list Effect) : chats (l1 ++ l2) = chats l1 ++ chats l2.
Proof.
  induction l1 as [| e l1 IH]; [reflexivity |].
  destruct e; cbn [app chats]; rewrite ?IH; reflexivity.
Qed.

Lemma init_chats (client_made : bool) :
  chats (trace (init env client_made))
  = if OLLAMA_AVAILABLE env && client_made then [test_messages] else [].
Proof.
  unfold init, initialize_llama. cbn [llama_client].
  destruct (OLLAMA_AVAILABLE env), client_made; cbn; try reflexivity.
  destruct (llama_chat env _); reflexivity.
Qed.

(** The connection to the chat model is decided once, at start-up.  After
    [__init__] the client is connected exactly when the package is
    installed, the client was made and the test request was answered.
    The one announcement that says which is printed and not spoken:
    [__init__] calls [initialize_llama] before it assigns the voice
    settings that [speak] reads.  A session never changes the
    connection: when the test failed, no request goes to the chat model
    in the whole session, however long the session lasts and whatever is
    said. *)
Theorem connection_decided_at_startup (client_made : bool) (fuel : nat) :
  let a0 := init env client_made in
  let a := snd (run env fuel a0) in
  (llama_client a0 = true <-> chat_ready env client_made) /\
  spoken (trace a0) = [] /\
  printed (trace a0)
  = [ if OLLAMA_AVAILABLE env then
        if llama_client a0
        then "Llama2 AI model connected successfully!"
        else "Warning: Llama2 model not available. I'll work with basic functions."
      else "AI features limited. Ollama not installed." ] /\
  llama_client a = llama_client a0 /\
  (llama_client a0 = false ->
   chats (trace a)
   = if OLLAMA_AVAILABLE env && client_made then [test_messages] else []).
Proof.
  intros a0 a. split; [apply init_client |].
  split; [apply init_printed |]. split; [apply init_printed |].
  assert (H : llama_client a = llama_client a0 /\
              exists added,
                trace a = trace a0 ++ added /\
                Forall (allowed env (llama_client a0)) added).
  { apply (confined_run env (fun b => llama_client b = llama_client a0)
             (allowed env (llama_client a0)));
      try (intros; cbn; congruence); try (intros; exact Logic.I). }
  destruct H as (Hc & added & Ht & Ha). split; [exact Hc |].
  intros Hoff. rewrite Ht, chats_app, (chats_none _ _ Hoff Ha), app_nil_r.
  apply init_chats.
Qed.

End Connection.

Section Normalizer.

Lemma string_app_assoc (s t u : string) : ((s ++ t) ++ u = s ++ t ++ u)%string.
Proof. induction s as [| c s IH]; [reflexivity |]. cbn. rewrite IH. reflexivity. Qed.

Lemma string_app_nil (s : string) : (s ++ "")%string = s.
Proof. induction s as [| c s IH]; [reflexivity |]. cbn. rewrite IH. reflexivity. Qed.

Lemma lstrip_length (s : string) : (String.length (lstrip s) <= String.length s)%nat.
Proof.
  induction s as [| c s IH]; [reflexivity |]. cbn [lstrip].
  destruct (isspace c); cbn [String.length]; lia.
Qed.

Lemma rstrip_length (s : string) : (String.length (rstrip s) <= String.length s)%nat.
Proof.
  induction s as [| c s IH]; [reflexivity |]. rewrite rstrip_cons.
  destruct (rstrip s); [destruct (isspace c) |]; cbn [String.length] in *; lia.
Qed.

Lemma operand_head (x : string) :
  operand x ->
  exists c rest, x = String c rest /\ isspace c = false /\ islower c = false.
Proof.
  intros (Hl & Hs & Hn). destruct x as [| c rest]; [contradiction |].
  exists c, rest. split; [reflexivity |]. split.
  - destruct (isspace c) eqn:E; [| reflexivity]. exfalso.
    unfold strip in Hs. cbn [lstrip] in Hs. rewrite E in Hs.
    pose proof (rstrip_length (lstrip rest)) as H1.
    pose proof (lstrip_length rest) as H2.
    rewrite Hs in H1. cbn [String.length] in H1. lia.
  - cbn [letter_free] in Hl. apply andb_true_iff in Hl. destruct Hl as [Hl _].
    apply negb_true_iff in Hl. exact Hl.
Qed.

Lemma operand_rstrip (y : string) : operand y -> rstrip y = y.
Proof.
  intros H. destruct (operand_head y H) as (c & rest & -> & Hc & _).
  destruct H as (_ & Hs & _). unfold strip in Hs. cbn [lstrip] in Hs.
  rewrite Hc in Hs. exact Hs.
Qed.

Lemma rstrip_app_operand (t y : string) :
  operand y -> rstrip (t ++ y) = (t ++ y)%string.
Proof.
  intros H. induction t as [| c t IH]; [exact (operand_rstrip y H) |].
  cbn [append]. rewrite rstrip_cons, IH.
  destruct (t ++ y)%string eqn:E; [| reflexivity].
  destruct t; [| discriminate]. cbn in E. destruct H as (_ & _ & Hn).
  contradiction.
Qed.

Lemma lstrip_app_operand (l x r : string) :
  operand x -> lstrip (l ++ x ++ r) = (lstrip l ++ x ++ r)%string.
Proof.
  intros H. destruct (operand_head x H) as (c & rest & -> & Hc & _).
  induction l as [| d l IH]; cbn [append lstrip].
  - rewrite Hc. reflexivity.
  - destruct (isspace d); [exact IH | reflexivity].
Qed.

Lemma strip_segments (l x m y : string) :
  operand x -> operand y ->
  strip (l ++ x ++ m ++ y) = (lstrip l ++ x ++ m ++ y)%string.
Proof.
  intros Hx Hy. unfold strip. rewrite (lstrip_app_operand l x _ Hx).
  rewrite <- !string_app_assoc. apply rstrip_app_operand. exact Hy.
Qed.

Lemma prefix_wordy_operand (old x s : string) :
  wordy old = true -> operand x ->
  prefix old (x ++ s) = match old with EmptyString => true | _ => false end.
Proof.
  intros Hw Hx. destruct old as [| c r]; [apply prefix_empty |].
  destruct (operand_head x Hx) as (d & rest & -> & Hd & Hl).
  cbn [append prefix]. destruct (ascii_dec c d) as [-> | _]; [| reflexivity].
  cbn [wordy] in Hw. rewrite Hd, Hl in Hw. discriminate.
Qed.

Lemma prefix_segment (old l x s : string) :
  wordy old = true -> operand x -> prefix old (l ++ x ++ s) = prefix old l.
Proof.
  intros Hw Hx. revert old Hw.
  induction l as [| e l IH]; intros old Hw.
  - cbn [append]. rewrite (prefix_wordy_operand old x s Hw Hx).
    destruct old; reflexivity.
  - destruct old as [| c r]; [reflexivity |].
    cbn [append prefix]. destruct (ascii_dec c e); [| reflexivity].
    apply IH. cbn [wordy] in Hw. apply andb_true_iff in Hw. apply Hw.
Qed.

Lemma prefix_length (old l : string) :
  prefix old l = true -> (String.length old <= String.length l)%nat.
Proof.
  revert l. induction old as [| c r IH]; intros l H; [cbn; lia |].
  destruct l as [| e l]; [discriminate |]. cbn [prefix] in H.
  destruct (ascii_dec c e); [| discriminate].
  specialize (IH l H). cbn [String.length]. lia.
Qed.

Lemma phrase_wordy (old : string) : phrase old = true -> wordy old = true.
Proof.
  destruct old as [| c r]; [discriminate |]. cbn [phrase wordy].
  intros H. apply andb_true_iff in H. destruct H as [-> ->]. reflexivity.
Qed.

Lemma replace_from_letter_free (old new x s : string) :
  phrase old = true -> letter_free x = true ->
  replace_from old new 0 (x ++ s) = (x ++ replace_from old new 0 s)%string.
Proof.
  intros Hp. destruct old as [| c r]; [discriminate |].
  cbn [phrase] in Hp. apply andb_true_iff in Hp. destruct Hp as [Hc _].
  induction x as [| d x IH]; intros Hx; [reflexivity |].
  cbn [letter_free] in Hx. apply andb_true_iff in Hx. destruct Hx as [Hd Hx].
  cbn [append replace_from prefix].
  destruct (ascii_dec c d) as [-> | _].
  - rewrite Hc in Hd. discriminate.
  - rewrite (IH Hx). reflexivity.
Qed.

Lemma replace_from_segment (old new x s : string) :
  phrase old = true -> operand x ->
  forall l k,
    (k <= String.length l)%nat ->
    replace_from old new k (l ++ x ++ s)
    = (replace_from old new k l ++ x ++ replace_from old new 0 s)%string.
Proof.
  intros Hp Hx. pose proof (phrase_wordy old Hp) as Hw.
  induction l as [| e l IH]; intros k Hk.
  - cbn [String.length] in Hk. replace k with 0%nat by lia. cbn [append].
    apply replace_from_letter_free; [exact Hp | apply Hx].
  - cbn [append replace_from]. destruct k as [| k].
    + change (String e (l ++ x ++ s)) with (String e l ++ x ++ s)%string.
      rewrite (prefix_segment old (String e l) x s Hw Hx).
      destruct (prefix old (String e l)) eqn:E.
      * rewrite IH, string_app_assoc; [reflexivity |].
        apply prefix_length in E. cbn [String.length] in E. lia.
      * rewrite IH by lia. reflexivity.
    + apply IH. cbn [String.length] in Hk. lia.
Qed.

Lemma replace_segments (old new l x m y : string) :
  phrase old = true -> operand x -> operand y ->
  replace old new (l ++ x ++ m ++ y)
  = (replace old new l ++ x ++ replace old new m ++ y)%string.
Proof.
  intros Hp Hx Hy. unfold replace. destruct old as [| c r]; [discriminate |].
  rewrite (replace_from_segment _ new x (m ++ y) Hp Hx l 0%nat (Nat.le_0_l _)).
  rewrite <- (string_app_nil y) at 1.
  rewrite (replace_from_segment _ new y "" Hp Hy m 0%nat (Nat.le_0_l _)).
  cbn [replace_from]. rewrite string_app_nil. reflexivity.
Qed.

Lemma normalized_parts (expression : string) :
  normalized expression = symbols (strip (without_lead expression)).
Proof. reflexivity. Qed.

(** The normalizer leaves operands alone and rewrites the text before
    and between them piece by piece. *)
Lemma normalized_segments (l x m y : string) :
  operand x -> operand y ->
  normalized (l ++ x ++ m ++ y)
  = (symbols (lstrip (without_lead l)) ++ x ++ symbols (without_lead m) ++ y)%string.
Proof.
  intros Hx Hy. rewrite normalized_parts. unfold without_lead.
  rewrite !(fun o n l m E => replace_segments o n l x m y E Hx Hy) by reflexivity.
  rewrite (strip_segments _ x _ y Hx Hy).
  unfold symbols, replace_words, word_to_num. cbn [fold_left fst snd].
  rewrite !(fun o n l m E => replace_segments o n l x m y E Hx Hy) by reflexivity.
  reflexivity.
Qed.

(** The calculator reads every operator phrase between any two operands:
    after an optional "calculate" or "what is", the text [x word y] is
    normalized to [x symbol y], for each of the eleven phrases of the
    source and for all operands [x] and [y] without letters (numbers in
    digits, with signs, points or brackets). *)
Theorem operator_words_normalized (lead x word symbol y : string) :
  In lead calculator_leads ->
  In (word, symbol) operator_words ->
  operand x -> operand y ->
  normalized (lead ++ x ++ " " ++ word ++ " " ++ y)
  = (x ++ " " ++ symbol ++ " " ++ y)%string.
Proof.
  intros Hlead Hword Hx Hy.
  replace (" " ++ word ++ " " ++ y)%string with ((" " ++ word ++ " ") ++ y)%string
    by (rewrite !string_app_assoc; reflexivity).
  rewrite (normalized_segments lead x _ y Hx Hy).
  assert (E1 : symbols (lstrip (without_lead lead)) = "").
  { cbn in Hlead.
    repeat (destruct Hlead as [<- | Hlead]; [vm_compute; reflexivity |]).
    contradiction. }
  assert (E2 : symbols (without_lead (" " ++ word ++ " "))
               = (" " ++ symbol ++ " ")%string).
  { cbn in Hword.
    repeat (destruct Hword as [E | Hword];
            [injection E as <- <-; vm_compute; reflexivity |]).
    contradiction. }
  rewrite E1, E2, !string_app_assoc. reflexivity.
Qed.

Lemma replace_letter_free (old new s : string) :
  phrase old = true -> letter_free s = true -> replace old new s = s.
Proof.
  intros Hp Hs. unfold replace. destruct old as [| c r]; [discriminate |].
  rewrite <- (string_app_nil s) at 1.
  rewrite (replace_from_letter_free _ new s "" Hp Hs).
  apply string_app_nil.
Qed.

Lemma letter_free_lstrip (s : string) :
  letter_free s = true -> letter_free (lstrip s) = true.
Proof.
  induction s as [| c s IH]; [reflexivity |]. intros H. cbn [lstrip].
  destruct (isspace c); [| exact H].
  cbn [letter_free] in H. apply andb_true_iff in H. apply IH, H.
Qed.

Lemma letter_free_rstrip (s : string) :
  letter_free s = true -> letter_free (rstrip s) = true.
Proof.
  induction s as [| c s IH]; [reflexivity |]. intros H.
  cbn [letter_free] in H. apply andb_true_iff in H. destruct H as [Hc Hs].
  rewrite rstrip_cons. specialize (IH Hs).
  destruct (rstrip s); [destruct (isspace c) |]; cbn [letter_free] in *;
    rewrite ?Hc, ?IH; reflexivity.
Qed.

(** A text without letters is already in symbols: the normalizer hands it
    to [eval] as it is, the white space at its ends apart. *)
Theorem symbols_pass_through (expression : string) :
  letter_free expression = true ->
  normalized expression = strip expression.
Proof.
  intros H. rewrite normalized_parts. unfold without_lead.
  rewrite (replace_letter_free "calculate" "" expression eq_refl H).
  rewrite (replace_letter_free "what is" "" expression eq_refl H).
  pose proof (letter_free_rstrip _ (letter_free_lstrip _ H)) as Hs.
  fold (strip expression) in Hs.
  unfold symbols, replace_words, word_to_num. cbn [fold_left fst snd].
  repeat match goal with
    | |- context [replace ?o ?n (strip expression)] =>
        rewrite (replace_letter_free o n (strip expression) eq_refl Hs)
    end.
  reflexivity.
Qed.

End Normalizer.

Section Threads.

Variable env : Env.

Lemma remove_first_comm (x y : string * Z) (l : list (string * Z)) :
  remove_first x (remove_first y l) = remove_first y (remove_first x l).
Proof.
  induction l as [| [s m] l IH]; [reflexivity |]. cbn [remove_first].
  destruct (String.eqb (fst x) s && Z.eqb (snd x) m) eqn:Ex;
    destruct (String.eqb (fst y) s && Z.eqb (snd y) m) eqn:Ey;
    cbn [remove_first]; rewrite ?Ex, ?Ey; try reflexivity.
  - apply (same_reminder x (s, m)) in Ex. apply (same_reminder y (s, m)) in Ey.
    subst. reflexivity.
  - rewrite IH. reflexivity.
Qed.

Lemma remove_nth_cons {A : Type} (i : nat) (x : A) (l : list A) :
  remove_nth (S i) (x :: l) = x :: remove_nth i l.
Proof. reflexivity. Qed.

Lemma remove_nth_later {A : Type} (i : nat) :
  forall (j : nat) (l : list A),
    (i < j)%nat ->
    nth_error (remove_nth i l) (j - 1) = nth_error l j /\
    nth_error (remove_nth j l) i = nth_error l i /\
    remove_nth (j - 1) (remove_nth i l) = remove_nth i (remove_nth j l).
Proof.
  induction i as [| i IH]; intros j l Hij.
  - destruct j as [| j]; [lia |]. replace (S j - 1)%nat with j by lia.
    destruct l as [| x l]; [destruct j; repeat split; reflexivity |].
    rewrite remove_nth_cons. repeat split.
  - destruct j as [| j]; [lia |]. replace (S j - 1)%nat with j by lia.
    destruct l as [| x l].
    + destruct j; repeat split; reflexivity.
    + rewrite !remove_nth_cons.
      destruct (IH j l) as (H1 & H2 & H3); [lia |].
      destruct j as [| j]; [lia |].
      replace (S j - 1)%nat with j in * by lia.
      rewrite remove_nth_cons. cbn [nth_error]. rewrite H1, H2, H3.
      repeat split.
Qed.

(** The order in which two pending reminder threads run does not matter
    to the assistant: either way the same threads are left pending, the
    same reminders are left active and the same alerts have been spoken;
    only the order of the alerts in the trace differs. *)
Theorem reminder_threads_commute (i j : nat) (a : VoiceFridayAssistant) :
  (i < j)%nat -> (j < List.length (threads a))%nat ->
  let a1 := snd (run_thread env (j - 1) (snd (run_thread env i a))) in
  let a2 := snd (run_thread env i (snd (run_thread env j a))) in
  same_but_trace a1 a2 /\ Permutation (trace a1) (trace a2).
Proof.
  intros Hij Hj.
  destruct (nth_error (threads a) i) as [[ti mi] |] eqn:Ei;
    [| apply nth_error_None in Ei; lia].
  destruct (nth_error (threads a) j) as [[tj mj] |] eqn:Ej;
    [| apply nth_error_None in Ej; lia].
  destruct (remove_nth_later i j (threads a) Hij) as (H1 & H2 & H3).
  cbv zeta.
  rewrite (run_thread_effect env i ti mi a Ei), (run_thread_effect env j tj mj a Ej).
  destruct (time_sleep_raises env (mi * 60)) eqn:Si;
    destruct (time_sleep_raises env (mj * 60)) eqn:Sj;
    match goal with
    | |- context [run_thread env (j - 1) ?b] =>
        rewrite (run_thread_effect env (j - 1) tj mj b)
          by (cbn [threads set_threads set_trace set_active_reminders];
              rewrite H1; exact Ej)
    end;
    match goal with
    | |- context [run_thread env i ?b] =>
        rewrite (run_thread_effect env i ti mi b)
          by (cbn [threads set_threads set_trace set_active_reminders];
              rewrite H2; exact Ei)
    end;
    rewrite ?Si, ?Sj;
    unfold same_but_trace;
    cbn [threads trace active_reminders set_threads set_trace set_active_reminders
         is_listening conversation_context llama_client utterances];
    rewrite H3; (split; [try reflexivity | try apply Permutation_refl]).
  - rewrite remove_first_comm. reflexivity.
  - rewrite <- !app_assoc. apply Permutation_app_head.
    apply (Permutation_app_comm [_; _] [_; _]).
Qed.

End Threads.

Lemma exit_keyword_ends_session_witness :
  fst (handle_voice_command sample_env "please exit now" (init sample_env false))
    = "exit"
  /\ fst (run_loop sample_env 1 (init sample_env false)) = true.
Proof.
  destruct (exit_keyword_ends_session sample_env "please exit now" eq_refl)
    as (H1 & H2 & _).
  split.
  - apply H1.
  - apply (H2 0%nat (init sample_env false) (init sample_env false) eq_refl).
    + exists "Hey Friday", " Please EXIT now ". repeat split.
    + lia.
Defined.


Lemma conversation_context_bounded_witness :
  let a :=
    set_conversation_context [ {| role := user; content := "hello" |} ]
                             (init chatty_env true) in
  let calls := repeat ("how are you", "general") 12 in
  let turns := conversation_context a ++ turns_added chatty_env calls a in
  let a0 := init chatty_env true in
  let calls0 := repeat ("how are you", "general") 13 in
  let turns0 := turns_added chatty_env calls0 a0 in
  List.length turns = 25%nat /\
  (List.length (conversation_context (ask_all chatty_env calls a)) <= 20)%nat /\
  conversation_context (ask_all chatty_env calls a) = skipn 5 turns /\
  List.length turns0 = 26%nat /\
  conversation_context (ask_all chatty_env calls0 a0) = skipn 6 turns0.
Proof.
  intros a calls turns a0 calls0 turns0.
  assert (Hlen : (List.length (conversation_context a) <= 20)%nat)
    by (cbn; lia).
  assert (Hlen0 : (List.length (conversation_context a0) <= 20)%nat)
    by (cbn; lia).
  destruct (conversation_context_bounded chatty_env) as (_ & H & _).
  destruct (H calls a Hlen) as (Hb & _ & H25).
  destruct (H calls0 a0 Hlen0) as (_ & H20 & _).
  split; [reflexivity | split; [exact Hb | split; [apply H25; reflexivity |]]].
  split; [reflexivity | exact H20].
Defined.

Lemma calculator_examples_witness :
  voice_calculator sample_env "what is five plus three" = "The answer is 8" /\
  voice_calculator sample_env "calculate ten times ten" = "The answer is 100".
Proof.
  destruct (calculator_examples sample_env arithmetic_only_agrees)
    as (_ & _ & H8 & _ & _ & H100).
  split; [exact H8 | exact H100].
Defined.

Lemma nineteen_plus_one_witness :
  voice_calculator sample_env "calculate nineteen plus one" = calculator_failure.
Proof.
  destruct (nineteen_plus_one sample_env arithmetic_only_agrees)
    as (_ & _ & _ & H).
  exact H.
Defined.


Lemma play_opens_song_witness :
  handle_voice_command sample_env "play shape of you" (init sample_env false)
  = ("continue",
     set_trace
       (trace (init sample_env false)
        ++ [Opened "https://youtu.be/JGwWNGJdvx8"; Spoke "Playing shape of you"])
       (init sample_env false)) /\
  handle_voice_command sample_env "play some unknown title" (init sample_env false)
  = ("continue",
     set_trace
       (trace (init sample_env false)
        ++ [Opened "https://www.youtube.com/results?search_query=some+unknown+title";
            Spoke "Searching for some unknown title on YouTube"])
       (init sample_env false)).
Proof.
  destruct (play_opens_song sample_env (init sample_env false)) as [Hin Hout].
  split.
  - apply (Hin "shape of you" "https://youtu.be/JGwWNGJdvx8").
    + left. reflexivity.
    + reflexivity.
  - apply (Hout "some unknown title"); reflexivity.
Defined.

Lemma weather_without_api_key_witness :
  get_weather sample_env "Delhi" (init sample_env false)
  = ("Please configure weather API key for weather updates.",
     init sample_env false).
Proof.
  exact (proj1 (weather_without_api_key sample_env "Delhi"
                  (init sample_env false) eq_refl)).
Defined.


Lemma unmatched_command_converses_witness :
  exists context_type,
    (forall a, handle_voice_command sample_env "write me a poem" a
               = converse sample_env "write me a poem" context_type a) /\
    context_type = "creative".
Proof.
  destruct (unmatched_command_converses sample_env "write me a poem" eq_refl)
    as (context_type & H & _ & Hcreative & _).
  exists context_type. split; [exact H |].
  apply Hcreative; reflexivity.
Defined.


Lemma times_tells_the_time_witness :
  handle_voice_command sample_env "calculate ten times ten" (init sample_env false)
  = ("continue",
     set_trace
       (trace (init sample_env false) ++ [Spoke "It's 09:05 AM"])
       (init sample_env false)).
Proof.
  exact (times_tells_the_time sample_env "calculate ten times ten"
           (init sample_env false)
           eq_refl eq_refl eq_refl eq_refl eq_refl eq_refl eq_refl).
Defined.

Lemma number_words_read_witness :
  normalized "thirteen" = "13" /\
  voice_calculator sample_env "calculate thirteen plus one" = "The answer is 14".
Proof.
  apply (number_words_read sample_env arithmetic_only_agrees "thirteen" "13").
  - cbn. tauto.
  - cbn. intros H. repeat (destruct H as [H | H]; [discriminate H |]). exact H.
Defined.

Lemma context_holds_whole_exchanges_witness :
  let a := ask_all chatty_env (repeat ("how are you", "general") 4)
             (init chatty_env true) in
  whole_exchanges (snd (run chatty_env 3 (init chatty_env true))) /\
  request_messages "and you" "task" a
  = [ {| role := system; content := item "task" system_prompts |} ]
    ++ turns_of (repeat ("how are you", "At your service.") 3)
    ++ [ {| role := user; content := "and you" |} ].
Proof.
  intros a.
  destruct (context_holds_whole_exchanges chatty_env) as (Hinit & Hrun & Hreq).
  split.
  - apply Hrun. apply Hinit.
  - apply (Hreq "and you" "task" a (repeat ("how are you", "At your service.") 4)).
    reflexivity.
Defined.

Lemma listen_returns_normalized_witness :
  fst (listen sample_env 15 (set_utterances 1 (init sample_env false)))
  = "please exit now".
Proof.
  destruct (listen_returns_normalized sample_env 15
              (set_utterances 1 (init sample_env false)))
    as (_ & _ & _ & _ & H & _).
  exact (proj1 (H " Please EXIT now " eq_refl)).
Defined.

Lemma reminders_accounted_witness :
  let a := snd (run reminding_env 1 (init reminding_env false)) in
  threads a = [("drink water", 5%Z)] /\
  reminders_pending reminding_env a /\
  trace (snd (run_thread reminding_env 0 a))
  = trace a ++ [Slept 300; Spoke "Reminder alert! drink water"].
Proof.
  cbv zeta.
  destruct (reminders_accounted reminding_env) as (Hinit & Hrun & Hthread).
  assert (E : threads (snd (run reminding_env 1 (init reminding_env false)))
              = [("drink water", 5%Z)]) by (vm_compute; reflexivity).
  assert (H : reminders_pending reminding_env
                (snd (run reminding_env 1 (init reminding_env false)))).
  { apply Hrun, Hinit. }
  split; [exact E | split; [exact H |]].
  apply (Hthread 0%nat "drink water" 5%Z _ H); [| reflexivity].
  rewrite E. reflexivity.
Defined.

Lemma unsleepable_reminder_stays_witness :
  let a := snd (run reminding_env 1 (init reminding_env false)) in
  let a1 := snd (set_reminder_voice "renew passport" 153722868 a) in
  sleepable reminding_env 153722867 = true /\
  sleepable reminding_env 153722868 = false /\
  In ("renew passport", 153722868%Z)
     (active_reminders
        (snd (run_thread reminding_env 0
                (snd (run_thread reminding_env 1 a1))))).
Proof.
  intros a a1.
  destruct (unsleepable_reminder_stays reminding_env "renew passport" 153722868
              eq_refl) as (_ & _ & H).
  split; [reflexivity | split; [reflexivity |]].
  apply H, H. subst a1. cbn [set_reminder_voice snd active_reminders
                             set_active_reminders set_threads].
  apply in_or_app. right. left. reflexivity.
Defined.


Lemma no_wake_word_no_action_witness :
  exists added,
    run_loop unaddressed_env 4 (init unaddressed_env false)
    = (false,
       set_utterances 4
         (set_trace (trace (init unaddressed_env false) ++ added)
            (init unaddressed_env false))) /\
    Forall waiting_effect added.
Proof.
  apply (no_wake_word_no_action unaddressed_env 4 (init unaddressed_env false)).
  - reflexivity.
  - intros i _ text H. injection H as <-. reflexivity.
Defined.

Lemma connection_decided_at_startup_witness :
  llama_client (init chatty_env true) = true /\
  spoken (trace (init chatty_env true)) = [] /\
  printed (trace (init chatty_env true))
  = ["Llama2 AI model connected successfully!"] /\
  llama_client (snd (run chatty_env 3 (init chatty_env true))) = true /\
  llama_client (init sample_env true) = false /\
  chats (trace (snd (run sample_env 3 (init sample_env true)))) = [].
Proof.
  destruct (connection_decided_at_startup chatty_env true 3)
    as (H1 & H2 & H2' & H3 & _).
  destruct (connection_decided_at_startup sample_env true 3) as (_ & _ & _ & _ & H4).
  repeat match goal with |- _ /\ _ => split end.
  - reflexivity.
  - exact H2.
  - rewrite H2'. reflexivity.
  - rewrite H3. reflexivity.
  - reflexivity.
  - apply H4. reflexivity.
Defined.

Lemma operator_words_normalized_witness :
  normalized "what is (3 + 4) to the power of -2.5" = "(3 + 4) ** -2.5".
Proof.
  apply (operator_words_normalized "what is " "(3 + 4)" "to the power of" "**" "-2.5").
  - right. right. left. reflexivity.
  - do 8 right. left. reflexivity.
  - repeat split. discriminate.
  - repeat split. discriminate.
Defined.

Lemma symbols_pass_through_witness :
  normalized " 12 * (3 + 4) / 2 " = "12 * (3 + 4) / 2".
Proof. apply (symbols_pass_through " 12 * (3 + 4) / 2 "). reflexivity. Defined.

Lemma reminder_threads_commute_witness :
  let a := snd (set_reminder_voice "stand up" 10
                  (snd (set_reminder_voice "drink water" 5 (init sample_env false)))) in
  active_reminders
    (snd (run_thread sample_env 0 (snd (run_thread sample_env 0 a)))) = [] /\
  same_but_trace
    (snd (run_thread sample_env 0 (snd (run_thread sample_env 0 a))))
    (snd (run_thread sample_env 0 (snd (run_thread sample_env 1 a)))).
Proof.
  split; [reflexivity |].
  apply (reminder_threads_commute sample_env 0 1); cbn; lia.
Defined.

End Friday.
